(** * Flight phase derivation rules of [analysis_engine/flight_phase.py]

    A shallow embedding of the phase-derivation rules and of the beam
    capture scanner [scan_ils], together with the properties stated about
    them.

    Conventions of the embedding:
    - sample values and interpolated indices are rationals ([Q]): the
      source computes them in floating point, and the embedding takes its
      arithmetic as exact;
    - a masked array is a [list (option A)], [None] being a masked sample;
    - a Python [slice] is a record with optional ends; integer slices
      index arrays, rational slices carry interpolated indices, and an
      array indexed by a rational slice has its ends truncated, as numpy
      did when the program was written;
    - a Python call that can raise returns a [result]. *)

From Stdlib Require Import String List ZArith QArith Qabs Qround Bool Lia Lqa.
From Stdlib Require Import Sorted.
Import ListNotations.

Set Implicit Arguments.
Local Open Scope Q_scope.

(** ** Exceptions and the error monad *)

Inductive exn : Type :=
| TypeError
| IndexError
| ZeroDivisionError
| KeyError
| AttributeError
| ValueError (msg : string)
| DataFrameError (node : string) (frame : option string).

Inductive result (A : Type) : Type :=
| Return (a : A)
| Raise (e : exn).

Arguments Return {A} a.
Arguments Raise {A} e.

Definition bind {A B : Type} (m : result A) (k : A -> result B) : result B :=
  match m with
  | Return a => k a
  | Raise e => Raise e
  end.

Notation "x <- m ;; k" := (bind m (fun x => k))
  (at level 61, m at next level, right associativity).

(** ** Numbers *)

Definition Qltb (a b : Q) : bool := negb (Qle_bool b a).
Definition Qleb (a b : Q) : bool := Qle_bool a b.

(** Python's [min(a, b)]: the first argument unless the second is smaller. *)
Definition py_min (a b : Q) : Q := if Qltb b a then b else a.

(** Python's [max(a, b)]: the first argument unless the second is larger. *)
Definition py_max (a b : Q) : Q := if Qltb a b then b else a.

(** The integer injected in the rationals. *)
Definition ZtoQ (z : Z) : Q := inject_Z z.
Definition NtoQ (n : nat) : Q := inject_Z (Z.of_nat n).

(** Conversion of a float to an integer by truncation towards zero. *)
Definition Qtrunc (q : Q) : Z := if Qltb q 0 then Qceiling q else Qfloor q.

(** ** Slices *)

Record slice (I : Type) : Type := Slice {
  start : option I;
  stop : option I;
  step : option Z
}.

Arguments Slice {I} start stop step.

(** [slice(a, b)] with both ends given. *)
Definition slice2 {I : Type} (a b : I) : slice I := Slice (Some a) (Some b) None.

(** [x or 0] for an optional number: [None] and [0] both give [0]. *)
Definition or_zero (o : option Q) : Q :=
  match o with
  | Some q => q
  | None => 0
  end.

(** ** Sequences *)

(** [l[n]] for a non-negative in-range [n]; [IndexError] otherwise. *)
Definition getitem {A : Type} (l : list A) (n : nat) : result A :=
  match nth_error l n with
  | Some a => Return a
  | None => Raise IndexError
  end.

(** [l[i]] for an integer [i], a negative [i] counting from the end. *)
Definition getitem_Z {A : Type} (l : list A) (i : Z) : result A :=
  let len := Z.of_nat (length l) in
  let j := if (i <? 0)%Z then (i + len)%Z else i in
  if (j <? 0)%Z then Raise IndexError else getitem l (Z.to_nat j).

(** [l[1::2]] and [l[::2]]. *)
Fixpoint odd_indexed {A : Type} (l : list A) : list A :=
  match l with
  | _ :: b :: rest => b :: odd_indexed rest
  | _ => []
  end.

Fixpoint even_indexed {A : Type} (l : list A) : list A :=
  match l with
  | a :: _ :: rest => a :: even_indexed rest
  | [a] => [a]
  | [] => []
  end.

(** A list comprehension whose condition can raise. *)
Fixpoint filterM {A : Type} (f : A -> result bool) (l : list A)
  : result (list A) :=
  match l with
  | [] => Return []
  | a :: rest =>
      keep <- f a ;;
      kept <- filterM f rest ;;
      Return (if keep then a :: kept else kept)
  end.

(** A loop that runs a fallible step on every element, in order. *)
Fixpoint mapM {A B : Type} (f : A -> result B) (l : list A)
  : result (list B) :=
  match l with
  | [] => Return []
  | a :: rest =>
      b <- f a ;;
      bs <- mapM f rest ;;
      Return (b :: bs)
  end.

(** ** Masked arrays (numpy.ma) *)

Definition masked_array (A : Type) : Type := list (option A).

(** An end of a basic slice brought within [0, len]. *)
Definition norm_index (len i : Z) : Z :=
  if (i <? 0)%Z then Z.max 0 (i + len) else Z.min i len.

(** [a[s]] for a slice with integer ends and no step. *)
Definition np_getslice {A : Type} (a : list A) (s : slice Z) : list A :=
  let len := Z.of_nat (length a) in
  let lo := match start s with Some i => norm_index len i | None => 0%Z end in
  let hi := match stop s with Some i => norm_index len i | None => len end in
  firstn (Z.to_nat (hi - lo)) (skipn (Z.to_nat lo) a).

(** [a[s]] for a slice with float ends and no step: numpy truncates the
    ends to integers. *)
Definition np_getslice_float {A : Type} (a : list A) (s : slice Q) : list A :=
  np_getslice a (Slice (option_map Qtrunc (start s))
                       (option_map Qtrunc (stop s)) None).

(** [np.ma.count]: the number of valid samples. *)
Definition ma_count {A : Type} (a : masked_array A) : nat :=
  length (filter (fun x => match x with Some _ => true | None => false end) a).

(** [np.ma.abs]. *)
Definition ma_abs (a : masked_array Q) : masked_array Q :=
  map (option_map Qabs) a.

(** Position of the first valid sample, counted from [pos]. *)
Fixpoint first_valid_from {A : Type} (pos : nat) (a : masked_array A)
  : option (nat * A) :=
  match a with
  | [] => None
  | Some v :: _ => Some (pos, v)
  | None :: rest => first_valid_from (S pos) rest
  end.

(** Position of the last valid sample, counted from [pos]. *)
Fixpoint last_valid_from {A : Type} (pos : nat) (a : masked_array A)
  : option (nat * A) :=
  match a with
  | [] => None
  | x :: rest =>
      match last_valid_from (S pos) rest with
      | Some r => Some r
      | None => match x with Some v => Some (pos, v) | None => None end
      end
  end.

(** [np.ma.flatnotmasked_edges]: the positions of the first and of the last
    valid sample, [None] when every sample is masked; an array without any
    masked sample gives [0, size - 1], also when it is empty. *)
Definition flatnotmasked_edges {A : Type} (a : masked_array A)
  : option (Z * Z) :=
  if (ma_count a =? length a)%nat then Some (0%Z, (Z.of_nat (length a) - 1)%Z)
  else
    match first_valid_from 0 a, last_valid_from 0 a with
    | Some (f, _), Some (l, _) => Some (Z.of_nat f, Z.of_nat l)
    | _, _ => None
    end.

(** Runs of valid samples from position [pos] on; [cur] is the start of the
    run being read. *)
Fixpoint clump_from {A : Type} (pos : nat) (cur : option nat)
         (a : masked_array A) : list (slice Z) :=
  match a with
  | [] =>
      match cur with
      | Some s => [slice2 (Z.of_nat s) (Z.of_nat pos)]
      | None => []
      end
  | Some _ :: rest =>
      clump_from (S pos) (Some (match cur with Some s => s | None => pos end))
                 rest
  | None :: rest =>
      match cur with
      | Some s =>
          slice2 (Z.of_nat s) (Z.of_nat pos) :: clump_from (S pos) None rest
      | None => clump_from (S pos) None rest
      end
  end.

(** [np.ma.clump_unmasked]: the maximal runs of valid samples.  An array
    without any masked sample gives the one slice [slice(0, size)], also
    when it is empty. *)
Definition clump_unmasked {A : Type} (a : masked_array A) : list (slice Z) :=
  if (ma_count a =? length a)%nat then [slice2 0%Z (Z.of_nat (length a))]
  else clump_from 0 None a.

(** [np.ma.masked_where] on a sample-wise condition: the samples that
    satisfy it become masked, the masked ones stay masked. *)
Definition masked_where {A : Type} (cond : A -> bool) (a : masked_array A)
  : masked_array A :=
  map (fun x => match x with
                | Some v => if cond v then None else Some v
                | None => None
                end) a.

Definition masked_equal (a : masked_array Z) (v : Z) : masked_array Z :=
  masked_where (fun x => (x =? v)%Z) a.

Definition masked_less (a : masked_array Q) (v : Q) : masked_array Q :=
  masked_where (fun x => Qltb x v) a.

(** [np.ma.logical_or]: masked where either operand is. *)
Definition ma_logical_or (a b : masked_array bool) : masked_array bool :=
  map (fun xy => match xy with
                 | (Some x, Some y) => Some (x || y)
                 | _ => None
                 end) (combine a b).

(** [array - datum] for a scalar that may be the masked constant. *)
Definition ma_sub_scalar (a : masked_array Q) (datum : option Q)
  : masked_array Q :=
  map (fun x => match x, datum with
                | Some v, Some d => Some (v - d)
                | _, _ => None
                end) a.

(** ** Library helpers *)

(** Modelled from the spec: [first_valid_sample] of
    [analysis_engine.library], which is not among the sources.  The first
    valid sample of an array as an (index, value) pair, and [(None, None)],
    here [None], when the array has no valid sample. *)
Definition first_valid_sample {A : Type} (a : masked_array A)
  : option (nat * A) :=
  first_valid_from 0 a.

(** Modelled from the spec: [last_valid_sample] of
    [analysis_engine.library], which is not among the sources.  The last
    valid sample of an array as an (index, value) pair, [None] when the
    array has no valid sample. *)
Definition last_valid_sample {A : Type} (a : masked_array A)
  : option (nat * A) :=
  last_valid_from 0 a.

(** The [endpoint] argument of [index_at_value]. *)
Inductive endpoint : Type := exact | closing | nearest.

(** The type of [index_at_value(array, threshold, _slice, endpoint)]: an
    interpolated index, [None], or an exception. *)
Definition index_at_value_t : Type :=
  masked_array Q -> Q -> slice Q -> endpoint -> result (option Q).

(** Python 2 orders [None] below every number. *)
Definition py2_le (a b : option Q) : bool :=
  match a, b with
  | None, _ => true
  | Some _, None => false
  | Some x, Some y => Qleb x y
  end.

(** Truth value of an optional float: [None] and [0] are false. *)
Definition truthy (o : option Q) : bool :=
  match o with
  | Some q => negb (Qeq_bool q 0)
  | None => false
  end.

Definition slice_ZtoQ (s : slice Z) : slice Q :=
  Slice (option_map ZtoQ (start s)) (option_map ZtoQ (stop s)) (step s).

(** ** The beam capture scanner *)

Section ScanILS.

(** [index_at_value] belongs to [analysis_engine.library], which is not
    among the sources; the scanner is embedded over any implementation. *)
Variable index_at_value : index_at_value_t.

(** The ends of [scan_slice] are indices as the approach rules compute
    them, floats in general. *)

(** [slice(scan_slice.stop, scan_slice.start, -1)]. *)
Definition backward (scan_slice : slice Q) : slice Q :=
  Slice (stop scan_slice) (start scan_slice) (Some (-1)%Z).

(** [slice(scan_slice.start, ils_lost_idx)]. *)
Definition upto (scan_slice : slice Q) (ils_lost_idx : Q) : slice Q :=
  Slice (start scan_slice) (Some ils_lost_idx) None.

(** Lines 719-724, the range of valid dots and the quality test:
    [Return true] when the scan goes on, [Return false] when [scan_ils]
    returns [None] there. *)
Definition quality_check (ils_dots : masked_array Q) (scan_slice : slice Q)
  : result bool :=
  let window := np_getslice_float ils_dots scan_slice in
  match flatnotmasked_edges window, start scan_slice with
  | Some (first, last), Some s =>
      let valid_slice := slice2 (ZtoQ first + s) (ZtoQ last + s) in
      if (ma_count window <? 5)%nat then Return false
      else
        let valid := np_getslice_float ils_dots valid_slice in
        if (length valid =? 0)%nat then Raise ZeroDivisionError
        else Return (negb (Qltb (NtoQ (ma_count valid) / NtoQ (length valid))
                                (4 # 10)))
  | _, _ => Raise TypeError
  end.

(** Lines 729-743, "Find loss of capture": [Return None] when [scan_ils]
    returns [None] there. *)
Definition loss_of_capture (ils_abs : masked_array Q) (scan_slice : slice Q)
  : result (option Q) :=
  match last_valid_sample (np_getslice_float ils_abs scan_slice),
        start scan_slice with
  | Some (last_valid_idx, last_valid_value), Some s =>
      if Qltb last_valid_value (25 # 10) then
        Return (Some (s + NtoQ last_valid_idx + 1))
      else
        index_at_value ils_abs (25 # 10) (backward scan_slice) exact
  | _, _ => Raise TypeError
  end.

(** Lines 745-752, the 200 ft limit of the glideslope. *)
Definition height_limit (beam : string) (height : masked_array Q)
           (scan_slice : slice Q) (ils_lost_idx : Q) : result Q :=
  if String.eqb beam "glideslope" then
    idx_200 <- index_at_value height 200 (backward scan_slice) closing ;;
    match idx_200 with
    | Some i => Return (py_min ils_lost_idx i)
    | None => Return ils_lost_idx
    end
  else Return ils_lost_idx.

(** Lines 754-774, "Find start of capture". *)
Definition start_of_capture (ils_abs : masked_array Q)
           (scan_slice : slice Q) (ils_lost_idx : Q) : result (option Q) :=
  scan_start_idx <-
    index_at_value ils_abs (25 # 10)
      (Slice (Some ils_lost_idx) (start scan_slice) (Some (-1)%Z)) exact ;;
  if truthy scan_start_idx then
    index_at_value ils_abs 1
      (Slice scan_start_idx (Some ils_lost_idx) None) exact
  else
    match first_valid_sample
            (np_getslice_float ils_abs (upto scan_slice ils_lost_idx)),
          start scan_slice with
    | Some (first_valid_idx, first_valid_value), Some s =>
        if Qltb first_valid_value 1 then
          Return (Some (s + NtoQ first_valid_idx))
        else
          index_at_value ils_abs 1
            (Slice (Some s) (Some ils_lost_idx) None) exact
    | _, _ => Raise TypeError
    end.

Definition scan_ils (beam : string) (ils_dots height : masked_array Q)
           (scan_slice : slice Q) : result (option (slice Q)) :=
  if negb (String.eqb beam "localizer" || String.eqb beam "glideslope") then
    Raise (ValueError "Unrecognised beam type in scan_ils")
  else
    pass <- quality_check ils_dots scan_slice ;;
    if negb pass then Return None
    else
      let ils_abs := ma_abs ils_dots in
      lost <- loss_of_capture ils_abs scan_slice ;;
      match lost with
      | None => Return None
      | Some ils_lost_idx =>
          ils_lost_idx <- height_limit beam height scan_slice ils_lost_idx ;;
          ils_capture_idx <- start_of_capture ils_abs scan_slice ils_lost_idx ;;
          match ils_capture_idx with
          | None => Return None
          | Some capture => Return (Some (slice2 capture ils_lost_idx))
          end
      end.

End ScanILS.

(** ** ClimbCruiseDescent *)

Module ClimbCruiseDescent.

(** One iteration of the [while n < n_vals - 1] loop of
    [ClimbCruiseDescent.derive]: the phases created by the iteration and
    the value of [n] after it. *)
Definition body (pk_idxs pk_vals : list Q) (n : nat)
  : result (list (slice Q) * nat) :=
  let n_vals := length pk_vals in
  pk_val <- getitem pk_vals n ;;
  pk_idx <- getitem pk_idxs n ;;
  next_pk_val <- getitem pk_vals (n + 1) ;;
  next_pk_idx <- getitem pk_idxs (n + 1) ;;
  if Qltb next_pk_val pk_val then
    Return ([Slice None (Some next_pk_idx) None], (n + 1)%nat)
  else
    if (n + 2 <? n_vals)%nat then
      v2 <- getitem pk_vals (n + 2) ;;
      if Qltb v2 next_pk_val then
        i2 <- getitem pk_idxs (n + 2) ;;
        Return ([Slice (Some pk_idx) (Some i2) None], (n + 2)%nat)
      else
        Return ([], n)
    else
      Return ([Slice (Some pk_idx) None None], (n + 1)%nat).

(** The loop itself.  [None] when the fuel runs out before the guard
    [n < n_vals - 1] fails. *)
Fixpoint while (fuel : nat) (pk_idxs pk_vals : list Q) (n : nat)
         (phases : list (slice Q)) : option (result (list (slice Q))) :=
  if (n <? length pk_vals - 1)%nat then
    match fuel with
    | O => None
    | S fuel' =>
        match body pk_idxs pk_vals n with
        | Return (created, n') =>
            while fuel' pk_idxs pk_vals n' (phases ++ created)
        | Raise e => Some (Raise e)
        end
    end
  else Some (Return phases).

(** The processing of one airborne section, given what [cycle_finder]
    returned for it: [pk_idxs += air.slice.start or 0], then the loop.
    [cycle_finder] answers [(None, None)] when it finds no cycle. *)
Definition derive_air (fuel : nat) (air : slice Z)
           (cycles : option (list Q * list Q))
  : option (result (list (slice Q))) :=
  match cycles with
  | None => Some (Return [])
  | Some (pk_idxs, pk_vals) =>
      let offset := or_zero (option_map ZtoQ (start air)) in
      while fuel (map (fun i => i + offset) pk_idxs) pk_vals 0 []
  end.

Section Derive.

(** [cycle_finder(array, min_step)] of [analysis_engine.library], which is
    not among the sources, and the constant of [analysis_engine.settings]
    it is given. *)
Variable cycle_finder : masked_array Q -> Q -> option (list Q * list Q).
Variable HYSTERESIS_FPALT_CCD : Q.

(** [for air in airs], with fuel for the loop of every section. *)
Fixpoint derive (fuel : nat) (alt_aal : masked_array Q) (airs : list (slice Z))
  : option (result (list (slice Q))) :=
  match airs with
  | [] => Some (Return [])
  | air :: rest =>
      match derive_air fuel air
                       (cycle_finder (np_getslice alt_aal air)
                                     HYSTERESIS_FPALT_CCD) with
      | Some (Return created) =>
          match derive fuel alt_aal rest with
          | Some (Return more) => Some (Return (created ++ more))
          | other => other
          end
      | other => other
      end
  end.

End Derive.

(** Consecutive extrema go opposite ways: every rise is followed by a
    fall and every fall by a rise. *)
Fixpoint strictly_alternating (vals : list Q) : bool :=
  match vals with
  | a :: ((b :: c :: _) as rest) =>
      ((Qltb a b && Qltb c b) || (Qltb b a && Qltb b c))
      && strictly_alternating rest
  | [a; b] => Qltb a b || Qltb b a
  | _ => true
  end.

End ClimbCruiseDescent.

(** ** Parameters of the flight *)

(** A recorded or derived parameter: its masked array and sample rate. *)
Record parameter : Type := mkParameter {
  array : masked_array Q;
  frequency : Q
}.

(** A multi-state parameter: raw states, sample rate and the mapping from
    raw value to state name. *)
Record multistate : Type := mkMultiState {
  raw : masked_array Z;
  hz : Q;
  values_mapping : list (Z * string)
}.

(** [array.state[name]]: the raw value of a named state. *)
Fixpoint state (mapping : list (Z * string)) (name : string) : result Z :=
  match mapping with
  | [] => Raise KeyError
  | (v, n) :: rest => if String.eqb n name then Return v else state rest name
  end.

(** ** Holding *)

(** Modelled from the spec: [shift_slices] of [analysis_engine.library],
    which is not among the sources ("shift(offset)").  Every slice moved by
    the offset; an offset that is [None] or [0] leaves the slices as they
    are. *)
Definition shift_slices (slices : list (slice Z)) (offset : option Z)
  : list (slice Z) :=
  match offset with
  | None => slices
  | Some d =>
      map (fun s => Slice (option_map (Z.add d) (start s))
                          (option_map (Z.add d) (stop s)) (step s)) slices
  end.

Module Holding.
Section Derive.

(** Constants of [analysis_engine.settings]. *)
Variables HOLDING_MIN_TIME HOLDING_MAX_GSPD KTS_TO_MPS : Q.

(** [bearing_and_distance(lat1, lon1, lat2, lon2)]: bearing and distance,
    the distance being masked ([None]) when it cannot be computed. *)
Variable bearing_and_distance :
  option Q -> option Q -> option Q -> option Q -> option Q * option Q.

(** [slices_from_to(array, from, to)], of which the rule uses the slices,
    and [rate_of_change(param, width)]. *)
Variable slices_from_to : masked_array Q -> Q -> Q -> list (slice Z).
Variable rate_of_change : parameter -> Q -> masked_array Q.

(** [turn_band.stop - turn_band.start]. *)
Definition hold_sec (b e : Z) : Q := ZtoQ (e - b).

(** The average groundspeed the rule computes for a band.  (The duration
    test comes first, so that the quotient is not computed for an empty
    band unless [HOLDING_MIN_TIME * frequency] is negative.) *)
Definition average_groundspeed (hold_dist : Q) (b e : Z) : Q :=
  hold_dist / KTS_TO_MPS / hold_sec b e.

(** The body of [for turn_band in ...]: whether the band is appended to
    [hold_bands]. *)
Definition keeps (alt_frequency : Q) (lat lon : masked_array Q)
           (turn_band : slice Z) : result bool :=
  match start turn_band, stop turn_band with
  | Some b, Some e =>
      if Qltb (HOLDING_MIN_TIME * alt_frequency) (hold_sec b e) then
        lat1 <- getitem_Z lat b ;;
        lon1 <- getitem_Z lon b ;;
        lat2 <- getitem_Z lat (e - 1) ;;
        lon2 <- getitem_Z lon (e - 1) ;;
        match snd (bearing_and_distance lat1 lon1 lat2 lon2) with
        | Some hold_dist =>
            Return (Qltb (average_groundspeed hold_dist b e) HOLDING_MAX_GSPD)
        | None => Return false
        end
      else Return false
  | _, _ => Raise TypeError
  end.

(** The bands tested within one height band. *)
Definition turn_bands (turn_rate : masked_array Q) (height_band : slice Z)
  : list (slice Z) :=
  shift_slices
    (clump_unmasked (masked_less (np_getslice turn_rate height_band) (1 # 2)))
    (start height_band).

(** The phases created for one height band. *)
Definition hold_bands (alt_frequency : Q) (lat lon : masked_array Q)
           (bands : list (slice Z)) : result (list (slice Z)) :=
  filterM (keeps alt_frequency lat lon) bands.

Definition derive (alt_aal hdg lat lon : parameter)
  : result (list (slice Z)) :=
  let height_bands := slices_from_to (array alt_aal) 20000 3000 in
  let turn_rate := rate_of_change hdg (3 * 60) in
  created <- mapM (fun height_band =>
                     hold_bands (frequency alt_aal) (array lat) (array lon)
                                (turn_bands turn_rate height_band))
                  height_bands ;;
  Return (concat created).

End Derive.
End Holding.

(** ** Cruise *)

Module Cruise.
Section Derive.

(** [tocs.get_first(within_slice=...)] and [tods.get_last(within_slice=...)]
    of the KTI node class, which is not among the sources: the index of
    the instance found, if any. *)
Variable get_first : list Q -> slice Q -> option Q.
Variable get_last : list Q -> slice Q -> option Q.

(** The body of [for ccd in ccds]. *)
Definition cruise (tocs tods : list Q) (ccd : slice Q) : result (slice Q) :=
  let begin := match get_first tocs ccd with
               | Some toc => Some toc
               | None => start ccd
               end in
  let end_ := match get_last tods ccd with
              | Some tod => Some tod
              | None => stop ccd
              end in
  if py2_le end_ begin then
    match begin with
    | Some b => Return (Slice (Some b) (Some (b + 1)) None)
    | None => Raise TypeError
    end
  else Return (Slice begin end_ None).

Definition derive (ccds : list (slice Q)) (tocs tods : list Q)
  : result (list (slice Q)) :=
  mapM (cruise tocs tods) ccds.

End Derive.
End Cruise.

(** ** TaxiOut *)

Module TaxiOut.
Section Derive.

(** [slices_overlap] of [analysis_engine.library], which is not among the
    sources. *)
Variable slices_overlap : slice Q -> slice Q -> bool.

(** The loop [for gnd in gnds]. *)
Fixpoint for_gnds (toff : slice Q) (gnds : list (slice Q))
  : result (list (slice Q)) :=
  match gnds with
  | [] => Return []
  | gnd :: rest =>
      if slices_overlap gnd toff then
        match start gnd, start toff with
        | Some gnd_start, Some toff_start =>
            let taxi_start := gnd_start + 1 in
            let taxi_stop := toff_start - 1 in
            phases <- for_gnds toff rest ;;
            Return (slice2 taxi_start taxi_stop :: phases)
        | _, _ => Raise TypeError
        end
      else for_gnds toff rest
  end.

Definition derive (gnds toffs : list (slice Q)) : result (list (slice Q)) :=
  match toffs with
  | toff :: _ => for_gnds toff gnds
  | [] => Return []
  end.

End Derive.
End TaxiOut.

(** ** Takeoff *)

Module Takeoff.
Section Derive.

Variable index_at_value : index_at_value_t.

(** Constants of [analysis_engine.settings]. *)
Variables HEADING_TURN_ONTO_RUNWAY INITIAL_CLIMB_THRESHOLD : Q.

(** [max(0, takeoff_run - (300 * head.frequency))]. *)
Definition first_index (head : parameter) (takeoff_run : Z) : Q :=
  py_max 0 (ZtoQ takeoff_run - 300 * frequency head).

(** The search for the turn onto the runway. *)
Definition search_begin (head : parameter) (takeoff_run : Z)
  : result (option Q) :=
  datum <- getitem_Z (array head) takeoff_run ;;
  index_at_value (ma_abs (ma_sub_scalar (array head) datum))
                 HEADING_TURN_ONTO_RUNWAY
                 (Slice (Some (ZtoQ takeoff_run))
                        (Some (first_index head takeoff_run))
                        (Some (-1)%Z))
                 exact.

(** The search for the climb through the initial-climb threshold. *)
Definition search_end (alt_aal : parameter) (takeoff_run : Z)
  : result (option Q) :=
  let last := ZtoQ takeoff_run + 300 * frequency alt_aal in
  index_at_value (array alt_aal) INITIAL_CLIMB_THRESHOLD
                 (Slice (Some (ZtoQ takeoff_run)) (Some last) None) exact.

(** [for speedy in fast]; a fast section without a start ends the loop. *)
Fixpoint derive (head alt_aal : parameter) (fast : list (slice Z))
  : result (list (slice Q)) :=
  match fast with
  | [] => Return []
  | speedy :: rest =>
      match start speedy with
      | None => Return []
      | Some takeoff_run =>
          found <- search_begin head takeoff_run ;;
          let takeoff_begin := match found with
                               | Some i => i
                               | None => first_index head takeoff_run
                               end in
          takeoff_end <- search_end alt_aal takeoff_run ;;
          phases <- derive head alt_aal rest ;;
          if truthy (Some takeoff_begin) && truthy takeoff_end then
            match takeoff_end with
            | Some e => Return (slice2 takeoff_begin e :: phases)
            | None => Return phases
            end
          else Return phases
      end
  end.

End Derive.
End Takeoff.

(** ** Gear transit and gear state *)

(** The [direction] argument of [find_edges]. *)
Inductive edge_direction : Type := rising_edges | falling_edges.

Section Gear.

(** [numpy.ma.extras._ezclump], which clumps a bool array into the
    slices of its runs, and [slices_and] and [find_edges] of
    [analysis_engine.library], which is not among the sources. *)
Variable ezclump : masked_array bool -> list (slice Z).
Variable slices_and : list (slice Z) -> list (slice Z) -> list (slice Z).
Variable find_edges : masked_array Z -> slice Z -> edge_direction -> list Q.

(** The three red warnings combined in one flicker signal; a sample is
    [true] in the 'Warning' state. *)
Definition gear_warn (l n r : masked_array bool) : masked_array bool :=
  ma_logical_or (ma_logical_or l r) n.

(** The runs during which the gear moves. *)
Definition gear_moving (warn : masked_array bool) : list (slice Z) :=
  let slices := ezclump warn in
  match first_valid_sample warn with
  | Some (_, false) => odd_indexed slices
  | _ => even_indexed slices
  end.

(** [gear_down.array[gear_move.start - 1] == <state>]; a masked sample
    compares as false. *)
Definition prior_state_is (gear_down : multistate) (name : string)
           (gear_move : slice Z) : result bool :=
  match start gear_move with
  | Some b =>
      x <- getitem_Z (raw gear_down) (b - 1) ;;
      v <- state (values_mapping gear_down) name ;;
      Return (match x with
              | Some r => (r =? v)%Z
              | None => false
              end)
  | None => Raise TypeError
  end.

(** The loop over the airborne sections of the warning-caption mode. *)
Definition warning_mode (gear_down : multistate) (name : string)
           (moving : list (slice Z)) (airs : list (slice Z))
  : result (list (slice Q)) :=
  created <- mapM (fun air =>
                     filterM (prior_state_is gear_down name)
                             (slices_and [air] moving))
                  airs ;;
  Return (map slice_ZtoQ (concat created)).

(** The discrete-edge mode: a phase of [5.0 * frequency] samples from
    every edge. *)
Definition edge_mode (gear_down : multistate) (direction : edge_direction)
           (airs : list (slice Z)) : list (slice Q) :=
  let edge_list := map (fun air => find_edges (raw gear_down) air direction)
                       airs in
  map (fun edge => slice2 edge (edge + 5 * hz gear_down)) (concat edge_list).

Definition available {A : Type} (p : option A) : bool :=
  match p with
  | Some _ => true
  | None => false
  end.

(** The body of [GearExtending.derive] and of [GearRetracting.derive],
    which differ by the name of the node, [self_name], by the state
    required one sample before a moving run, [prior], and by the edges
    looked for, [direction].  (The first combines the warnings with
    [np.ma.logical_or], the second tests each of them for 'Warning' and
    combines the tests with [|]; both give [gear_warn].)  [frame] is the
    value of the frame attribute when it is available and set. *)
Definition gear_transit (self_name prior : string)
           (direction : edge_direction) (gear_down : multistate)
           (gear_warn_l gear_warn_n gear_warn_r : option (masked_array bool))
           (frame : option string) (airs : list (slice Z))
  : result (list (slice Q)) :=
  let warnings := [available gear_warn_l; available gear_warn_n;
                   available gear_warn_r] in
  if existsb (fun b => b) warnings then
    if negb (forallb (fun b => b) warnings) then
      let frame_name := frame in
      Raise (DataFrameError self_name frame_name)
    else
      match gear_warn_l, gear_warn_n, gear_warn_r with
      | Some l, Some n, Some r =>
          warning_mode gear_down prior (gear_moving (gear_warn l n r)) airs
      | _, _, _ => Raise AttributeError
      end
  else Return (edge_mode gear_down direction airs).

End Gear.

Module GearExtending.
Definition derive ezclump slices_and find_edges :=
  gear_transit ezclump slices_and find_edges
               "Gear Extending" "Up" rising_edges.
End GearExtending.

Module GearRetracting.
Definition derive ezclump slices_and find_edges :=
  gear_transit ezclump slices_and find_edges
               "Gear Retracting" "Down" falling_edges.
End GearRetracting.

Module GearExtended.

(** The last slice shortened by one sample when it stops at the end of
    the array. *)
Definition trap (len : Z) (slice_list : list (slice Z))
  : result (list (slice Z)) :=
  match rev slice_list with
  | [] => Raise IndexError
  | last :: front =>
      if match stop last with
         | Some e => (e =? len)%Z
         | None => false
         end
      then Return (rev front ++
                   [Slice (start last)
                          (option_map (fun e => (e - 1)%Z) (stop last))
                          None])
      else Return slice_list
  end.

Definition derive (gear_down : multistate) : result (list (slice Z)) :=
  let slice_list := clump_unmasked (masked_equal (raw gear_down) 0) in
  trap (Z.of_nat (length (raw gear_down))) slice_list.

End GearExtended.

Module GearRetracted.

Definition derive (gear_down : multistate) : list (slice Z) :=
  clump_unmasked (masked_equal (raw gear_down) 1).

End GearRetracted.

(** ** Positions covered by slices *)

(** The position [i] lies within a slice with both ends set. *)
Definition within (i : Z) (s : slice Z) : Prop :=
  exists b e, start s = Some b /\ stop s = Some e /\ (b <= i < e)%Z.

(** The position [i] lies within one of the slices. *)
Definition covered (i : Z) (slices : list (slice Z)) : Prop :=
  exists s, In s slices /\ within i s.

(** The first slice stops before the second starts, with at least one
    position in between. *)
Definition apart (s1 s2 : slice Z) : Prop :=
  exists e b, stop s1 = Some e /\ start s2 = Some b /\ (e < b)%Z.

(** The sample at position [i] is valid and reads [v]. *)
Definition reads {A : Type} (a : masked_array A) (i : Z) (v : A) : Prop :=
  (0 <= i)%Z /\ nth_error a (Z.to_nat i) = Some (Some v).

(** Python 2 orders [None] below every number, strictly. *)
Definition py2_lt (a b : option Q) : bool :=
  match a, b with
  | None, Some _ => true
  | Some x, Some y => Qltb x y
  | _, None => false
  end.

(** ** Fast *)

Module Fast.
Section Derive.

(** Constant of [analysis_engine.settings]. *)
Variable AIRSPEED_THRESHOLD : Q.

(** Whether an end of a fast section is kept: it is given up when the
    airspeed there is more than [limit] away from the threshold; a masked
    sample compares as false. *)
Definition keeps_end (array : masked_array Q) (pos : Z) (limit : Q)
  : result bool :=
  x <- getitem_Z array pos ;;
  Return (match x with
          | Some v => negb (Qltb limit (Qabs (v - AIRSPEED_THRESHOLD)))
          | None => true
          end).

(** The body of [for fast_sample in fast_samples]. *)
Definition fast_phase (array : masked_array Q) (fast_sample : slice Z)
  : result (slice Z) :=
  match start fast_sample, stop fast_sample with
  | Some b, Some e =>
      keep_start <- keeps_end array b 20 ;;
      keep_stop <- keeps_end array (e - 1) 30 ;;
      Return (Slice (if keep_start then Some b else None)
                    (if keep_stop then Some e else None) None)
  | _, _ => Raise TypeError
  end.

Definition derive (airspeed : parameter) : result (list (slice Z)) :=
  let fast_samples :=
    clump_unmasked (masked_less (array airspeed) AIRSPEED_THRESHOLD) in
  mapM (fast_phase (array airspeed)) fast_samples.

End Derive.
End Fast.

(** ** Climb and Descent *)

Module Climb.

(** The body of [for this_toc in toc_list]. *)
Definition closer (eot : Q) (closest_toc : option Q) (this_toc : Q)
  : option Q :=
  if Qltb eot this_toc
     && (py2_lt (Some this_toc) closest_toc
         || match closest_toc with
            | None => true
            | Some _ => false
            end)
  then Some this_toc
  else closest_toc.

(** The top of climb retained for a climb start. *)
Definition closest_toc (toc_list : list Q) (eot : Q) : option Q :=
  fold_left (closer eot) toc_list None.

(** [toc] and [eot] are the indices of the tops of climb and of the climb
    starts, in the order of the nodes. *)
Definition derive (toc eot : list Q) : list (slice Q) :=
  map (fun this_eot => Slice (Some this_eot) (closest_toc toc this_eot) None)
      eot.

End Climb.

Module Descent.

(** The body of [for this_tod in tod_list]. *)
Definition closer (bod : Q) (closest_tod : option Q) (this_tod : Q)
  : option Q :=
  if Qltb this_tod bod && py2_lt closest_tod (Some this_tod)
  then Some this_tod
  else closest_tod.

(** The top of descent retained for a bottom of descent. *)
Definition closest_tod (tod_list : list Q) (bod : Q) : option Q :=
  fold_left (closer bod) tod_list None.

Definition derive (tod_set bod_set : list Q) : list (slice Q) :=
  map (fun bod => Slice (closest_tod tod_set bod) (Some bod) None) bod_set.

End Descent.

(** ** GoAround5MinRating *)

Module GoAround5MinRating.

(** The body of [for ga in gas]: [ga] is the slice of a go-around and
    [tdwn] the indices of the touchdowns; a touchdown instance is always
    true. *)
Definition rating (tdwn : list Q) (ga : slice Q) : result (list (slice Q)) :=
  match start ga with
  | Some startpoint =>
      let endpoint := startpoint + 300 in
      last_tdwn <- getitem_Z tdwn (-1) ;;
      let endpoint := py_min endpoint last_tdwn in
      Return (if Qltb startpoint endpoint
              then [slice2 startpoint endpoint]
              else [])
  | None => Raise TypeError
  end.

Definition derive (gas : list (slice Q)) (tdwn : list Q)
  : result (list (slice Q)) :=
  created <- mapM (rating tdwn) gas ;;
  Return (concat created).

End GoAround5MinRating.

(** ** InitialClimb *)

Module InitialClimb.
Section Derive.

(** [get_ordered_by_index] of the KTI node class, which is not among the
    sources. *)
Variable get_ordered_by_index : list Q -> list Q.

(** The inner loop, which stops at the first climb start past [begin]. *)
Fixpoint first_after (begin : option Q) (ordered : list Q)
  : list (slice Q) :=
  match ordered with
  | [] => []
  | end_ :: rest =>
      if py2_lt begin (Some end_)
      then [Slice begin (Some end_) None]
      else first_after begin rest
  end.

(** [takeoffs] holds the [stop_edge] of every takeoff section. *)
Definition derive (takeoffs : list (option Q)) (climb_starts : list Q)
  : list (slice Q) :=
  flat_map (fun begin => first_after begin (get_ordered_by_index climb_starts))
           takeoffs.

End Derive.
End InitialClimb.

(** ** Landing *)

Module Landing.
Section Derive.

Variable index_at_value : index_at_value_t.

(** Constants of [analysis_engine.settings]. *)
Variables LANDING_THRESHOLD_HEIGHT HEADING_TURN_OFF_RUNWAY : Q.

(** The test that ends the loop: the fast section has no stop, or stops
    at or past the end of the altitude array. *)
Definition runs_out (alt_aal : parameter) (speedy : slice Z) : bool :=
  match stop speedy with
  | None => true
  | Some e => (Z.of_nat (length (array alt_aal)) <=? e)%Z
  end.

(** [for speedy in fast]. *)
Fixpoint derive (head alt_aal : parameter) (fast : list (slice Z))
  : result (list (slice Q)) :=
  match fast with
  | [] => Return []
  | speedy :: rest =>
      if runs_out alt_aal speedy then Return []
      else
        match stop speedy with
        | None => Return []
        | Some landing_run =>
            datum <- getitem_Z (array head) landing_run ;;
            let first := ZtoQ landing_run - 300 * frequency alt_aal in
            landing_begin <-
              index_at_value (array alt_aal) LANDING_THRESHOLD_HEIGHT
                (Slice (Some first) (Some (ZtoQ landing_run)) None) exact ;;
            let last := ZtoQ landing_run + 480 * frequency head in
            found <-
              index_at_value (ma_abs (ma_sub_scalar (array head) datum))
                HEADING_TURN_OFF_RUNWAY
                (Slice (Some (ZtoQ landing_run)) (Some last) None) exact ;;
            let landing_end :=
              match found with
              | Some i => i
              | None => ZtoQ (Z.of_nat (length (array head)) - 1)
              end in
            phases <- derive head alt_aal rest ;;
            Return (Slice landing_begin (Some landing_end) None :: phases)
        end
  end.

End Derive.
End Landing.

(** ** Phases expected of ClimbCruiseDescent *)

(** One phase from every trough to the next trough, and a last phase
    without stop when the extrema end on a peak. *)
Fixpoint humps (pk_idxs : list Q) : list (slice Q) :=
  match pk_idxs with
  | a :: _ :: ((c :: _) as rest) => slice2 a c :: humps rest
  | [a; _] => [Slice (Some a) None None]
  | _ => []
  end.

(** Extrema that start by descending give first a phase without start. *)
Definition walk (pk_idxs pk_vals : list Q) : list (slice Q) :=
  match pk_vals, pk_idxs with
  | a :: b :: _, _ :: ((i1 :: _) as rest) =>
      if Qltb b a then Slice None (Some i1) None :: humps rest
      else humps pk_idxs
  | _, _ => []
  end.

(** ** A reference library

    The helpers of [analysis_engine.library] and of the node classes are
    not among the sources.  The rules above are embedded over any
    implementation of them; the definitions of this module give one, used
    to run the rules on concrete flights. *)

Module SpecLibrary.

(** The sample at an integer position, [None] when it is masked or out
    of the array. *)
Definition sample (a : masked_array Q) (pos : Z) : option Q :=
  if (pos <? 0)%Z then None
  else match nth_error a (Z.to_nat pos) with
       | Some x => x
       | None => None
       end.

(** The interpolated position of the threshold between two consecutive
    samples [a] and [b]. *)
Definition ratio (threshold a b : Q) : Q :=
  if Qeq_bool a b then 1 # 2 else (threshold - a) / (b - a).

(** The first pair of consecutive valid samples, from [pos] on in
    direction [dir], between which the array passes the threshold. *)
Fixpoint seek (a : masked_array Q) (threshold : Q) (pos dir : Z)
         (pairs : nat) : option Q :=
  match pairs with
  | O => None
  | S pairs' =>
      match sample a pos, sample a (pos + dir) with
      | Some x, Some y =>
          if Qleb ((x - threshold) * (y - threshold)) 0
          then Some (Qred (ZtoQ pos + ZtoQ dir * ratio threshold x y))
          else seek a threshold (pos + dir) dir pairs'
      | _, _ => seek a threshold (pos + dir) dir pairs'
      end
  end.

(** Rounding to the nearest integer. *)
Definition round (q : Q) : Z := Qfloor (q + (1 # 2)).

(** Modelled from the spec: [index_at_value] of
    [analysis_engine.library], which is not among the sources ("first/last
    crossing of target within a directional sub-range").  The scan runs
    forward over [slice(a, b)] and backward over [slice(a, b, -1)], within
    the array; the crossing is interpolated between the two samples
    around it; without any crossing the answer is [None], whatever the
    endpoint. *)
Definition index_at_value : index_at_value_t :=
  fun a threshold _slice _ =>
    let max_index := Z.of_nat (length a) in
    match step _slice with
    | None | Some 1%Z =>
        let begin := Z.max (round (or_zero (start _slice))) 0 in
        let end_ := Z.min (match stop _slice with
                           | Some e => round e
                           | None => max_index
                           end) max_index in
        Return (seek a threshold begin 1 (Z.to_nat (end_ - begin - 1)))
    | Some (-1)%Z =>
        let begin := Z.min (match start _slice with
                            | Some b => round b
                            | None => max_index
                            end) (max_index - 1) in
        let end_ := Z.max (Qtrunc (or_zero (stop _slice))) 0 in
        Return (seek a threshold begin (-1) (Z.to_nat (begin - end_)))
    | Some _ => Raise (ValueError "Step length not 1 in index_at_value")
    end.

(** Modelled from the spec: [slices_overlap] of
    [analysis_engine.library], which is not among the sources ("overlaps
    between grounded, takeoff/landing ... intervals").  Two slices overlap
    when each starts before the other stops, an unset start standing for
    the beginning of the data and an unset stop for its end. *)
Definition slices_overlap (a b : slice Q) : bool :=
  match stop b with
  | Some e => Qltb (or_zero (start a)) e
  | None => true
  end
  && match stop a with
     | Some e => Qltb (or_zero (start b)) e
     | None => true
     end.

(** Whether an index lies within a slice. *)
Definition is_index_within_slice (index : Q) (s : slice Q) : bool :=
  match start s with
  | Some b => Qleb b index
  | None => true
  end
  && match stop s with
     | Some e => Qltb index e
     | None => true
     end.

(** Modelled from the spec: [get_first(within_slice=...)] of the KTI node
    class, which is not among the sources.  The smallest index among the
    instances within the slice. *)
Definition get_first (ktis : list Q) (s : slice Q) : option Q :=
  fold_left (fun acc i =>
               match acc with
               | Some m => Some (py_min m i)
               | None => Some i
               end)
            (filter (fun i => is_index_within_slice i s) ktis) None.

(** Modelled from the spec: [get_last(within_slice=...)] of the KTI node
    class, which is not among the sources.  The largest index among the
    instances within the slice. *)
Definition get_last (ktis : list Q) (s : slice Q) : option Q :=
  fold_left (fun acc i =>
               match acc with
               | Some m => Some (py_max m i)
               | None => Some i
               end)
            (filter (fun i => is_index_within_slice i s) ktis) None.

(** Runs of equal samples from position [pos] on; [cur] is the start and
    the value of the run being read. *)
Fixpoint runs_from (pos : nat) (cur : option (nat * option bool))
         (a : masked_array bool) : list (slice Z) :=
  match a with
  | [] =>
      match cur with
      | Some (s, _) => [slice2 (Z.of_nat s) (Z.of_nat pos)]
      | None => []
      end
  | x :: rest =>
      match cur with
      | Some (s, v) =>
          if match x, v with
             | Some b, Some c => Bool.eqb b c
             | None, None => true
             | _, _ => false
             end
          then runs_from (S pos) cur rest
          else slice2 (Z.of_nat s) (Z.of_nat pos)
               :: runs_from (S pos) (Some (pos, x)) rest
      | None => runs_from (S pos) (Some (pos, x)) rest
      end
  end.

(** Modelled from the spec: [_ezclump] ("segment it into alternating runs
    of True/False"). *)
Definition ezclump (a : masked_array bool) : list (slice Z) :=
  runs_from 0 None a.

(** The common part of two slices with both ends set, if any. *)
Definition slice_and (a b : slice Z) : list (slice Z) :=
  match start a, stop a, start b, stop b with
  | Some a1, Some a2, Some b1, Some b2 =>
      let lo := Z.max a1 b1 in
      let hi := Z.min a2 b2 in
      if (lo <? hi)%Z then [slice2 lo hi] else []
  | _, _, _, _ => []
  end.

(** Modelled from the spec: [slices_and] of [analysis_engine.library],
    which is not among the sources (interval algebra, "intersect"). *)
Definition slices_and (first second : list (slice Z)) : list (slice Z) :=
  flat_map (fun a => flat_map (slice_and a) second) first.

(** The positions, from [pos] on, halfway between two consecutive valid
    samples of which the first is [from] and the second [to]. *)
Fixpoint edges_from (pos : nat) (from to : Z) (a : masked_array Z)
  : list Q :=
  match a with
  | Some x :: ((Some y :: _) as rest) =>
      if ((x =? from) && (y =? to))%Z
      then (NtoQ pos + (1 # 2)) :: edges_from (S pos) from to rest
      else edges_from (S pos) from to rest
  | _ :: rest => edges_from (S pos) from to rest
  | [] => []
  end.

(** Modelled from the spec: [find_edges] of [analysis_engine.library],
    which is not among the sources ("detect rising edges (extend) or
    falling edges (retract) directly on the discrete gear-position signal
    within each airborne interval"). *)
Definition find_edges (a : masked_array Z) (s : slice Z)
           (direction : edge_direction) : list Q :=
  let offset := match start s with
                | Some b => Z.to_nat (norm_index (Z.of_nat (length a)) b)
                | None => O
                end in
  match direction with
  | rising_edges => edges_from offset 0 1 (np_getslice a s)
  | falling_edges => edges_from offset 1 0 (np_getslice a s)
  end.

End SpecLibrary.

(** ** Example flights *)

Module Examples.

(** A localizer whose first sample is masked and which then stays at
    half a dot. *)
Definition late_localizer : masked_array Q :=
  [None; Some (1 # 2); Some (1 # 2); Some (1 # 2); Some (1 # 2); Some (1 # 2)].

Definition level_flight : masked_array Q := repeat (Some 1000) 6.

(** A deviation signal that is masked throughout the approach. *)
Definition no_signal : masked_array Q := repeat None 6.

Definition first_six : slice Q := slice2 0 6.




(** A glideslope held at half a dot down to the ground, and the height
    of a descent of 100 ft per sample from 1100 ft. *)
Definition steady_glideslope : masked_array Q := repeat (Some (1 # 2)) 12.

Definition descent : masked_array Q :=
  map (fun h => Some (inject_Z h))
      [1100; 1000; 900; 800; 700; 600; 500; 400; 300; 200; 100; 0]%Z.

Definition first_twelve : slice Q := slice2 0 12.

(** A localizer with five valid samples out of twelve, the first and the
    last sample being valid. *)
Definition sparse_localizer : masked_array Q :=
  [Some (1 # 2); None; None; Some (1 # 2); None; None; Some (1 # 2); None;
   None; Some (1 # 2); None; Some (1 # 2)].

(** The gear on a recording of three samples: up throughout, and down
    throughout. *)
Definition gear_states : list (Z * string) := [(0%Z, "Up"%string); (1%Z, "Down"%string)].

Definition gear_up_throughout : multistate :=
  mkMultiState [Some 0%Z; Some 0%Z; Some 0%Z] 1 gear_states.

Definition gear_down_throughout : multistate :=
  mkMultiState [Some 1%Z; Some 1%Z; Some 1%Z] 1 gear_states.

(** A gear that comes down at the fourth sample and goes up again at the
    eighth, recorded at 2 Hz, with the red warnings lit while it moves. *)
Definition gear_cycle : multistate :=
  mkMultiState (map Some [0; 0; 0; 1; 1; 1; 1; 0; 0; 0]%Z) 2 gear_states.

Definition warning_flicker : masked_array bool :=
  map Some [false; false; true; true; false; false; true; true; false; false].

Definition no_warning : masked_array bool := repeat (Some false) 10.

Definition airborne : list (slice Z) := [slice2 1%Z 9%Z].

(** A takeoff run from the very start of the data: the heading stays at
    90 degrees, the speed is high from the tenth sample on and the
    aircraft climbs 10 ft per sample from the twentieth. *)
Definition runway_heading : parameter :=
  mkParameter (repeat (Some 90) 40) 1.

Definition climb_out : parameter :=
  mkParameter (repeat (Some 0) 20
               ++ map (fun h => Some (inject_Z h))
                      [0; 10; 20; 30; 40; 50; 60; 70; 80; 90; 100; 110; 120;
                       130; 140; 150; 160; 170; 180; 190]%Z) 1.

Definition fast : list (slice Z) := [slice2 10%Z 38%Z].

(** Positions along a meridian: the distance between two of them is the
    difference of latitude, at 111195 m per degree. *)
Definition meridian_distance (lat1 lon1 lat2 lon2 : option Q)
  : option Q * option Q :=
  match lat1, lon1, lat2, lon2 with
  | Some a1, Some o1, Some a2, Some o2 =>
      if Qeq_bool o1 o2
      then (None, Some (Qabs (a2 - a1) * 111195))
      else (None, None)
  | _, _, _, _ => (None, None)
  end.

(** A slow drift north, and a rate of turn with two bands above half a
    degree per second: one of 241 samples and one of 240. *)
Definition latitude : masked_array Q :=
  repeat (Some 51) 250 ++ repeat (Some (5101 # 100)) 250.

Definition longitude : masked_array Q := repeat (Some 0) 500.

Definition turn_rate : masked_array Q :=
  repeat (Some (1 # 10)) 10 ++ repeat (Some 1) 241
  ++ repeat (Some (1 # 10)) 9 ++ repeat (Some 1) 240.

Definition height_band : slice Z := slice2 0%Z 500%Z.

End Examples.

(** ** Ordering of key time instances *)

Module KTI.

Fixpoint insert (x : Q) (l : list Q) : list Q :=
  match l with
  | [] => [x]
  | y :: rest => if Qleb x y then x :: l else y :: insert x rest
  end.

(** Modelled from the spec: [get_ordered_by_index] of the KTI node class,
    which is not among the sources (an event type is "collected ... as an
    ordered list").  The indices in increasing order. *)
Definition get_ordered_by_index (l : list Q) : list Q :=
  fold_right insert [] l.

End KTI.

(** ** More example flights *)

Module Flights.

(** A heading that turns from north onto a runway heading of 90 degrees
    at the fifth sample, at 1 Hz. *)
Definition lining_up : parameter :=
  mkParameter (repeat (Some 0) 5 ++ repeat (Some 90) 35) 1.

(** A descent of 10 ft per sample from 300 ft to the ground, and a heading
    that leaves the runway heading after the thirty-fifth sample. *)
Definition final_descent : parameter :=
  mkParameter (map (fun h => Some (inject_Z h))
                   [300; 290; 280; 270; 260; 250; 240; 230; 220; 210; 200;
                    190; 180; 170; 160; 150; 140; 130; 120; 110; 100; 90; 80;
                    70; 60; 50; 40; 30; 20; 10]%Z
               ++ repeat (Some 0) 10) 1.

Definition turning_off : parameter :=
  mkParameter (repeat (Some 90) 36 ++ repeat (Some 150) 4) 1.

Definition slowing : list (slice Z) := [slice2 5%Z 32%Z].

(** An airspeed that rises through 80 kt, is masked for a sample, and
    falls back from 130 kt. *)
Definition airspeed : parameter :=
  mkParameter [Some 40; Some 70; Some 90; Some 120; None; Some 130; Some 95;
               Some 60] 1.

(** The height band and the rate of turn of the holding example, as the
    library helpers give them for that flight. *)
Definition height_bands (_ : masked_array Q) (_ _ : Q) : list (slice Z) :=
  [Examples.height_band].

Definition rate_of_turn (_ : parameter) (_ : Q) : masked_array Q :=
  Examples.turn_rate.

Definition positions_north : parameter := mkParameter Examples.latitude 1.

Definition positions_east : parameter := mkParameter Examples.longitude 1.

(** A flight recorded at 2 Hz that turns during 482 samples, 241 seconds,
    from sample 10 on, and whose positions at the two ends of the turn
    are 0.1115 degrees of latitude apart: 12398 m, covered at 100 kt. *)
Definition wide_turn_rate (_ : parameter) (_ : Q) : masked_array Q :=
  repeat (Some (1 # 10)) 10 ++ repeat (Some 1) 482
  ++ repeat (Some (1 # 10)) 8.

Definition wide_turn_north : parameter :=
  mkParameter (repeat (Some 51) 250 ++ repeat (Some (511115 # 10000)) 250) 2.

Definition wide_turn_east : parameter := mkParameter Examples.longitude 2.

(** The same flight with the two ends of the turn 0.2 degrees of latitude
    apart: 22239 m. *)
Definition wider_turn_north : parameter :=
  mkParameter (repeat (Some 51) 250 ++ repeat (Some (512 # 10)) 250) 2.

End Flights.

(** * Properties *)

Unset Implicit Arguments.

(** ** Numbers *)

Lemma Qltb_lt (a b : Q) : Qltb a b = true <-> a < b.
Proof.
  unfold Qltb. rewrite negb_true_iff.
  split; intro H.
  - apply Qnot_le_lt. intro Hle. apply Qle_bool_iff in Hle. congruence.
  - destruct (Qle_bool b a) eqn:E; [|reflexivity].
    apply Qle_bool_iff in E. exfalso. apply (Qlt_not_le _ _ H E).
Qed.

Lemma Qltb_ge (a b : Q) : Qltb a b = false <-> b <= a.
Proof.
  unfold Qltb. rewrite negb_false_iff. apply Qle_bool_iff.
Qed.

Lemma Qleb_le (a b : Q) : Qleb a b = true <-> a <= b.
Proof. apply Qle_bool_iff. Qed.

Lemma getitem_Return {A : Type} (l : list A) (n : nat) (a : A) :
  getitem l n = Return a <-> nth_error l n = Some a.
Proof.
  unfold getitem. destruct (nth_error l n); split; congruence.
Qed.

Lemma getitem_in_range {A : Type} (l : list A) (n : nat) :
  (n < length l)%nat -> exists a, getitem l n = Return a.
Proof.
  intro H. unfold getitem.
  destruct (nth_error l n) eqn:E; [eauto|].
  apply nth_error_None in E. lia.
Qed.

(** ** ClimbCruiseDescent *)

Section CCD.
Import ClimbCruiseDescent.

Lemma strictly_alternating_at (vals : list Q) :
  strictly_alternating vals = true ->
  forall n a b c,
    nth_error vals n = Some a ->
    nth_error vals (n + 1) = Some b ->
    nth_error vals (n + 2) = Some c ->
    (a < b /\ c < b) \/ (b < a /\ b < c).
Proof.
  induction vals as [|x rest IH]; intros Halt n a b c Ha Hb Hc.
  - destruct n; discriminate.
  - destruct n as [|n].
    + destruct rest as [|y [|z rest']]; simpl in *; try discriminate.
      injection Ha as <-. injection Hb as <-. injection Hc as <-.
      apply andb_true_iff in Halt. destruct Halt as [H _].
      apply orb_true_iff in H.
      destruct H as [H|H]; apply andb_true_iff in H; destruct H as [H1 H2];
        apply Qltb_lt in H1; apply Qltb_lt in H2; auto.
    + simpl in Ha, Hb, Hc.
      apply (IH) with (n := n); auto.
      destruct rest as [|y [|z rest']]; simpl in *; try reflexivity.
      apply andb_true_iff in Halt. tauto.
Qed.

(** Under alternation an iteration moves [n] forward and keeps it within
    the guard's range. *)
Lemma body_advances (pk_idxs pk_vals : list Q) (n : nat) :
  length pk_idxs = length pk_vals ->
  strictly_alternating pk_vals = true ->
  (n < length pk_vals - 1)%nat ->
  exists created n',
    body pk_idxs pk_vals n = Return (created, n')
    /\ (n < n' <= length pk_vals - 1)%nat.
Proof.
  intros Hlen Halt Hn. unfold body.
  destruct (getitem_in_range pk_vals n) as [a Ha]; [lia|].
  destruct (getitem_in_range pk_idxs n) as [ia Hia]; [lia|].
  destruct (getitem_in_range pk_vals (n + 1)) as [b Hb]; [lia|].
  destruct (getitem_in_range pk_idxs (n + 1)) as [ib Hib]; [lia|].
  rewrite Ha, Hia, Hb, Hib. cbn [bind].
  destruct (Qltb b a) eqn:Eba.
  - eexists _, _. split; [reflexivity|lia].
  - destruct (n + 2 <? length pk_vals)%nat eqn:E2.
    + apply Nat.ltb_lt in E2.
      destruct (getitem_in_range pk_vals (n + 2)) as [c Hc]; [lia|].
      destruct (getitem_in_range pk_idxs (n + 2)) as [ic Hic]; [lia|].
      rewrite Hc. cbn [bind].
      apply getitem_Return in Ha, Hb, Hc.
      destruct (strictly_alternating_at _ Halt _ _ _ _ Ha Hb Hc) as [[_ Hcb]|[Hba _]].
      * apply Qltb_lt in Hcb. rewrite Hcb, Hic. cbn [bind].
        eexists _, _. split; [reflexivity|lia].
      * apply Qltb_lt in Hba. congruence.
    + apply Nat.ltb_ge in E2.
      eexists _, _. split; [reflexivity|lia].
Qed.

Lemma while_terminates (pk_idxs pk_vals : list Q) :
  length pk_idxs = length pk_vals ->
  strictly_alternating pk_vals = true ->
  forall fuel n phases,
    (length pk_vals - 1 - n <= fuel)%nat ->
    exists out, while fuel pk_idxs pk_vals n phases = Some (Return out).
Proof.
  intros Hlen Halt fuel.
  induction fuel as [|fuel IH]; intros n phases Hfuel.
  - cbn [while]. destruct (n <? length pk_vals - 1)%nat eqn:E; [|eauto].
    apply Nat.ltb_lt in E. lia.
  - cbn [while]. destruct (n <? length pk_vals - 1)%nat eqn:E; [|eauto].
    apply Nat.ltb_lt in E.
    destruct (body_advances pk_idxs pk_vals n Hlen Halt E) as (created & n' & Hb & Hn').
    rewrite Hb. apply IH. lia.
Qed.

(** An iteration that leaves [n] where it was repeats for ever. *)
Lemma while_stuck (pk_idxs pk_vals : list Q) (n : nat) :
  (n < length pk_vals - 1)%nat ->
  body pk_idxs pk_vals n = Return ([], n) ->
  forall fuel phases, while fuel pk_idxs pk_vals n phases = None.
Proof.
  intros Hn Hb fuel.
  apply Nat.ltb_lt in Hn.
  induction fuel as [|fuel IH]; intro phases; cbn [while]; rewrite Hn.
  - reflexivity.
  - rewrite Hb. apply IH.
Qed.

Lemma body_stuck (pk_idxs pk_vals : list Q) (n : nat) (a b c : Q) :
  length pk_idxs = length pk_vals ->
  nth_error pk_vals n = Some a ->
  nth_error pk_vals (n + 1) = Some b ->
  nth_error pk_vals (n + 2) = Some c ->
  a <= b -> b <= c ->
  body pk_idxs pk_vals n = Return ([], n).
Proof.
  intros Hlen Ha Hb Hc Hab Hbc.
  assert (Hn2 : (n + 2 < length pk_vals)%nat).
  { apply nth_error_Some. congruence. }
  unfold body.
  destruct (getitem_in_range pk_idxs n) as [ia Hia]; [lia|].
  destruct (getitem_in_range pk_idxs (n + 1)) as [ib Hib]; [lia|].
  apply getitem_Return in Ha, Hb, Hc.
  rewrite Ha, Hia, Hb, Hib. cbn [bind].
  apply Qltb_ge in Hab. rewrite Hab.
  apply Nat.ltb_lt in Hn2. rewrite Hn2, Hc. cbn [bind].
  apply Qltb_ge in Hbc. rewrite Hbc. reflexivity.
Qed.

(** C10.  When the extrema returned by [cycle_finder] strictly alternate
    in direction, every iteration of the ClimbCruiseDescent walking loop
    moves its index forward, so the loop finishes (within [n_vals]
    iterations).  Without the alternation, at three consecutive extrema
    that rise (or stay level) twice the iteration creates no phase and
    leaves the index unchanged, and the loop then never finishes. *)
Theorem ccd_loop_advances_iff_alternating (pk_idxs pk_vals : list Q)
        (Hlen : length pk_idxs = length pk_vals) :
  (strictly_alternating pk_vals = true ->
   (forall n, (n < length pk_vals - 1)%nat ->
              exists created n',
                body pk_idxs pk_vals n = Return (created, n')
                /\ (n < n' <= length pk_vals - 1)%nat)
   /\ exists phases,
       while (length pk_vals) pk_idxs pk_vals 0 [] = Some (Return phases))
  /\ (forall n a b c,
         nth_error pk_vals n = Some a ->
         nth_error pk_vals (n + 1) = Some b ->
         nth_error pk_vals (n + 2) = Some c ->
         a <= b -> b <= c ->
         body pk_idxs pk_vals n = Return ([], n)
         /\ forall fuel phases, while fuel pk_idxs pk_vals n phases = None).
Proof.
  split.
  - intro Halt. split.
    + intros n Hn. apply body_advances; assumption.
    + apply while_terminates; [assumption|assumption|lia].
  - intros n a b c Ha Hb Hc Hab Hbc.
    assert (Hbody := body_stuck pk_idxs pk_vals n a b c Hlen Ha Hb Hc Hab Hbc).
    split; [exact Hbody|].
    apply while_stuck; [|exact Hbody].
    assert ((n + 2 < length pk_vals)%nat) by (apply nth_error_Some; congruence).
    lia.
Qed.

End CCD.

(** C10 on a climb to 5000 ft and back, whose extrema alternate, and on
    three extrema that keep rising. *)
Lemma ccd_loop_witness :
  (exists phases,
      ClimbCruiseDescent.while 3 [10; 20; 30] [0; 5000; 0] 0 []
      = Some (Return phases))
  /\ (forall fuel phases,
         ClimbCruiseDescent.while fuel [10; 20; 30] [0; 1000; 2000] 0 phases
         = None).
Proof.
  split.
  - destruct (ccd_loop_advances_iff_alternating [10; 20; 30] [0; 5000; 0]
                eq_refl) as [Halt _].
    destruct (Halt eq_refl) as [_ Hterm]. exact Hterm.
  - destruct (ccd_loop_advances_iff_alternating [10; 20; 30] [0; 1000; 2000]
                eq_refl) as [_ Hstuck].
    apply (Hstuck 0%nat 0 1000 2000); try reflexivity;
      unfold Qle; simpl; lia.
Defined.

(** ** Masked arrays *)





Lemma first_valid_from_spec {A : Type} (a : masked_array A) :
  forall pos i v,
    first_valid_from pos a = Some (i, v) ->
    (pos <= i)%nat
    /\ nth_error a (i - pos) = Some (Some v)
    /\ forall j, (j < i - pos)%nat -> nth_error a j = Some None.
Proof.
  induction a as [|x rest IH]; intros pos i v H; simpl in H.
  - discriminate.
  - destruct x as [w|].
    + injection H as -> ->. rewrite Nat.sub_diag.
      split; [lia|]. split; [reflexivity|]. intros j Hj. lia.
    + destruct (IH _ _ _ H) as (Hle & Hnth & Hbefore).
      split; [lia|]. split.
      * replace (i - pos)%nat with (S (i - S pos)) by lia. exact Hnth.
      * intros j Hj. destruct j as [|j]; [reflexivity|].
        simpl. apply Hbefore. lia.
Qed.


(** ** The beam capture scanner *)

Section ScanILSProperties.

Variable index_at_value : index_at_value_t.

Lemma scan_ils_valid_beam (beam : string) ils_dots height scan_slice :
  beam = "localizer"%string \/ beam = "glideslope"%string ->
  scan_ils index_at_value beam ils_dots height scan_slice
  = (pass <- quality_check ils_dots scan_slice ;;
     if negb pass then Return None
     else
       lost <- loss_of_capture index_at_value (ma_abs ils_dots) scan_slice ;;
       match lost with
       | None => Return None
       | Some l0 =>
           l <- height_limit index_at_value beam height scan_slice l0 ;;
           c <- start_of_capture index_at_value (ma_abs ils_dots) scan_slice l ;;
           match c with
           | None => Return None
           | Some c => Return (Some (slice2 c l))
           end
       end).
Proof.
  intros [-> | ->]; reflexivity.
Qed.



Lemma py_min_le_l (a b : Q) : py_min a b <= a.
Proof.
  unfold py_min. destruct (Qltb b a) eqn:E.
  - apply Qltb_lt in E. lra.
  - lra.
Qed.

Lemma py_min_le_r (a b : Q) : py_min a b <= b.
Proof.
  unfold py_min. destruct (Qltb b a) eqn:E.
  - lra.
  - apply Qltb_ge in E. exact E.
Qed.

(** C1.  For the glideslope, whenever [scan_ils] returns an interval and
    the backward 'closing' search finds the index where the height last
    passes 200 ft, the interval stops at the smaller of the index where
    the deviation was lost and that height index, whatever the deviation
    signal: the interval never extends below 200 ft. *)
Theorem glideslope_stop_capped_at_200ft
        (ils_dots height : masked_array Q) (scan_slice : slice Q)
        (established : slice Q) (idx_200 : Q) :
  scan_ils index_at_value "glideslope" ils_dots height scan_slice = Return (Some established) ->
  index_at_value height 200 (backward scan_slice) closing
  = Return (Some idx_200) ->
  exists ils_lost_idx,
    loss_of_capture index_at_value (ma_abs ils_dots) scan_slice = Return (Some ils_lost_idx)
    /\ stop established = Some (py_min ils_lost_idx idx_200)
    /\ py_min ils_lost_idx idx_200 <= ils_lost_idx
    /\ py_min ils_lost_idx idx_200 <= idx_200.
Proof.
  intros Hscan H200.
  rewrite scan_ils_valid_beam in Hscan by (right; reflexivity).
  destruct (quality_check ils_dots scan_slice) as [[|]|]; try discriminate.
  cbn [bind negb] in Hscan.
  destruct (loss_of_capture index_at_value (ma_abs ils_dots) scan_slice) as [[l0|]|]; try discriminate.
  cbn [bind] in Hscan.
  unfold height_limit in Hscan. cbn [String.eqb Ascii.eqb Bool.eqb] in Hscan.
  rewrite H200 in Hscan. cbn [bind] in Hscan.
  destruct (start_of_capture index_at_value (ma_abs ils_dots) scan_slice (py_min l0 idx_200))
    as [[c|]|]; try discriminate.
  cbn [bind] in Hscan. injection Hscan as <-.
  exists l0. split; [reflexivity|]. split; [reflexivity|].
  split; [apply py_min_le_l|apply py_min_le_r].
Qed.

(** The quality test turns sparse signals down as long as one sample of
    the interval is valid. *)
Lemma scan_ils_sparse (beam : string) ils_dots height scan_slice f l s :
  beam = "localizer"%string \/ beam = "glideslope"%string ->
  flatnotmasked_edges (np_getslice_float ils_dots scan_slice) = Some (f, l) ->
  start scan_slice = Some s ->
  (ma_count (np_getslice_float ils_dots scan_slice) < 5)%nat ->
  scan_ils index_at_value beam ils_dots height scan_slice = Return None.
Proof.
  intros Hbeam Hedges Hs Hcount.
  rewrite scan_ils_valid_beam by assumption.
  unfold quality_check. rewrite Hedges, Hs.
  apply Nat.ltb_lt in Hcount. rewrite Hcount. reflexivity.
Qed.

(** So does it with signals of which less than 0.4 of the samples between
    the first valid sample and the last are valid. *)
Lemma scan_ils_poor_coverage (beam : string) ils_dots height scan_slice f l s :
  beam = "localizer"%string \/ beam = "glideslope"%string ->
  flatnotmasked_edges (np_getslice_float ils_dots scan_slice) = Some (f, l) ->
  start scan_slice = Some s ->
  let valid :=
    np_getslice_float ils_dots (slice2 (ZtoQ f + s) (ZtoQ l + s)) in
  (0 < length valid)%nat ->
  NtoQ (ma_count valid) / NtoQ (length valid) < 4 # 10 ->
  scan_ils index_at_value beam ils_dots height scan_slice = Return None.
Proof.
  intros Hbeam Hedges Hs valid Hlen Hfrac.
  rewrite scan_ils_valid_beam by assumption.
  unfold quality_check. rewrite Hedges, Hs.
  destruct (ma_count (np_getslice_float ils_dots scan_slice) <? 5)%nat;
    [reflexivity|].
  fold valid.
  destruct (length valid =? 0)%nat eqn:E; [apply Nat.eqb_eq in E; lia|].
  apply Qltb_lt in Hfrac. rewrite Hfrac. reflexivity.
Qed.

(** C2, at an interval without any valid sample: the edges of the valid
    range are [None] and adding the start of the interval to them raises
    [TypeError] before the count of valid samples is looked at. *)
Theorem scan_ils_all_masked_raises :
  ma_count (np_getslice_float Examples.no_signal Examples.first_six) = 0%nat
  /\ scan_ils index_at_value "localizer" Examples.no_signal Examples.level_flight
          Examples.first_six = Raise TypeError
  /\ scan_ils index_at_value "glideslope" Examples.no_signal Examples.level_flight
          Examples.first_six = Raise TypeError.
Proof.
  repeat split.
Qed.





(** C5, as the code has it.  When the backward search for 2.5 dots
    between the loss index and the start of the interval finds nothing,
    the first valid sample of the interval (up to the loss index)
    decides: below 1.0 dot the capture index is the start of the
    interval plus the offset of that sample, its index; otherwise the
    capture index is what the forward search for 1.0 dot from the start
    of the interval finds, and [scan_ils] returns [None] when it finds
    nothing. *)
Theorem capture_without_scan_start
        (beam : string) (ils_dots height : masked_array Q)
        (scan_slice : slice Q) (s : Q) (l0 ils_lost_idx : Q)
        (first_valid_idx : nat) (first_valid_value : Q) :
  beam = "localizer"%string \/ beam = "glideslope"%string ->
  quality_check ils_dots scan_slice = Return true ->
  start scan_slice = Some s ->
  loss_of_capture index_at_value (ma_abs ils_dots) scan_slice
  = Return (Some l0) ->
  height_limit index_at_value beam height scan_slice l0
  = Return ils_lost_idx ->
  index_at_value (ma_abs ils_dots) (25 # 10)
                 (Slice (Some ils_lost_idx) (Some s) (Some (-1)%Z))
                 exact = Return None ->
  first_valid_sample
    (np_getslice_float (ma_abs ils_dots) (upto scan_slice ils_lost_idx))
  = Some (first_valid_idx, first_valid_value) ->
  let forward := index_at_value (ma_abs ils_dots) 1
                   (Slice (Some s) (Some ils_lost_idx) None) exact in
  (first_valid_value < 1 ->
   scan_ils index_at_value beam ils_dots height scan_slice
   = Return (Some (slice2 (s + NtoQ first_valid_idx) ils_lost_idx)))
  /\ (1 <= first_valid_value ->
      (forall crossing, forward = Return (Some crossing) ->
         scan_ils index_at_value beam ils_dots height scan_slice
         = Return (Some (slice2 crossing ils_lost_idx)))
      /\ (forward = Return None ->
          scan_ils index_at_value beam ils_dots height scan_slice
          = Return None)).
Proof.
  intros Hbeam Hgate Hs Hloss Hlimit Hback Hfirst forward.
  assert (Hcap : start_of_capture index_at_value (ma_abs ils_dots)
                                  scan_slice ils_lost_idx
                 = if Qltb first_valid_value 1
                   then Return (Some (s + NtoQ first_valid_idx))
                   else forward).
  { unfold start_of_capture. rewrite Hs.
    rewrite Hback. cbn [bind truthy]. rewrite Hfirst. reflexivity. }
  rewrite scan_ils_valid_beam by assumption.
  rewrite Hgate. cbn [bind negb]. rewrite Hloss. cbn [bind].
  rewrite Hlimit. cbn [bind]. rewrite Hcap.
  split.
  - intro Hv. apply Qltb_lt in Hv. rewrite Hv. reflexivity.
  - intro Hv. apply Qltb_ge in Hv. rewrite Hv.
    split.
    + intros crossing ->. reflexivity.
    + intros ->. reflexivity.
Qed.

End ScanILSProperties.

(** The range over which the valid samples are counted stops short of the
    last valid sample: with five valid samples out of twelve, first and
    last included, the fraction computed is 4 / 11. *)
Lemma quality_check_leaves_last_valid_out :
  ma_count Examples.sparse_localizer = 5%nat
  /\ flatnotmasked_edges (np_getslice_float Examples.sparse_localizer
                                            Examples.first_twelve)
     = Some (0%Z, 11%Z)
  /\ ma_count (np_getslice_float Examples.sparse_localizer
                                 (slice2 (ZtoQ 0 + 0) (ZtoQ 11 + 0)))
     = 4%nat
  /\ quality_check Examples.sparse_localizer Examples.first_twelve
     = Return false
  /\ 4 # 10 <= 5 # 12.
Proof.
  repeat split; vm_compute; intro; discriminate.
Qed.

(** C1 on a glideslope held at half a dot down to the ground: the
    interval stops where the height passes 200 ft. *)
Lemma glideslope_stop_capped_witness :
  exists ils_lost_idx,
    loss_of_capture SpecLibrary.index_at_value
                    (ma_abs Examples.steady_glideslope) Examples.first_twelve
    = Return (Some ils_lost_idx)
    /\ stop (slice2 0 9) = Some (py_min ils_lost_idx 9)
    /\ py_min ils_lost_idx 9 <= ils_lost_idx
    /\ py_min ils_lost_idx 9 <= 9.
Proof.
  apply (glideslope_stop_capped_at_200ft SpecLibrary.index_at_value
           Examples.steady_glideslope Examples.descent Examples.first_twelve
           (slice2 0 9) 9); vm_compute; reflexivity.
Defined.



(** C5 as stated, on a localizer whose first sample is masked:
    no crossing of 2.5 dots is found, the first valid sample is below one
    dot, and the capture index is 1, not the start of the interval. *)
Lemma capture_after_interval_start :
  SpecLibrary.index_at_value (ma_abs Examples.late_localizer) (25 # 10)
                             (Slice (Some 6) (Some 0) (Some (-1)%Z)) exact
  = Return None
  /\ first_valid_sample (np_getslice_float (ma_abs Examples.late_localizer)
                                           Examples.first_six)
     = Some (1%nat, 1 # 2)
  /\ 1 # 2 < 1
  /\ start Examples.first_six = Some 0
  /\ exists capture,
      scan_ils SpecLibrary.index_at_value "localizer"
               Examples.late_localizer Examples.level_flight
               Examples.first_six
      = Return (Some (slice2 capture 6))
      /\ ~ capture == 0.
Proof.
  split; [vm_compute; reflexivity|].
  split; [vm_compute; reflexivity|].
  split; [reflexivity|].
  split; [reflexivity|].
  exists 1. split; [vm_compute; reflexivity|].
  intro H. discriminate H.
Qed.

(** C5 as the code has it, on the same localizer. *)
Lemma capture_without_scan_start_witness :
  (1 # 2 < 1 ->
   scan_ils SpecLibrary.index_at_value "localizer" Examples.late_localizer
            Examples.level_flight Examples.first_six
   = Return (Some (slice2 (0 + NtoQ 1) 6)))
  /\ (1 <= 1 # 2 ->
      (forall crossing,
          SpecLibrary.index_at_value (ma_abs Examples.late_localizer) 1
            (Slice (Some 0) (Some 6) None) exact
          = Return (Some crossing) ->
          scan_ils SpecLibrary.index_at_value "localizer"
                   Examples.late_localizer Examples.level_flight
                   Examples.first_six
          = Return (Some (slice2 crossing 6)))
      /\ (SpecLibrary.index_at_value (ma_abs Examples.late_localizer) 1
            (Slice (Some 0) (Some 6) None) exact = Return None ->
          scan_ils SpecLibrary.index_at_value "localizer"
                   Examples.late_localizer Examples.level_flight
                   Examples.first_six = Return None)).
Proof.
  apply (capture_without_scan_start SpecLibrary.index_at_value "localizer"
           Examples.late_localizer Examples.level_flight Examples.first_six
           0 6 6 1%nat (1 # 2)).
  - left. reflexivity.
  - vm_compute. reflexivity.
  - reflexivity.
  - vm_compute. reflexivity.
  - reflexivity.
  - vm_compute. reflexivity.
  - vm_compute. reflexivity.
Defined.

(** ** Loops *)

Lemma filterM_spec {A : Type} (f : A -> result bool) (l : list A) :
  (forall a, In a l -> exists b, f a = Return b) ->
  exists kept,
    filterM f l = Return kept
    /\ forall a, In a kept <-> In a l /\ f a = Return true.
Proof.
  induction l as [|x l IH]; intro Hok.
  - exists []. split; [reflexivity|]. intro a. simpl. tauto.
  - destruct (Hok x (or_introl eq_refl)) as [b Hb].
    destruct IH as (kept & Hkept & Hiff).
    { intros a Ha. apply Hok. right. exact Ha. }
    simpl. rewrite Hb, Hkept. cbn [bind].
    eexists. split; [reflexivity|].
    intro a. destruct b; simpl; rewrite Hiff.
    + split.
      * intros [<- | [Hin Hf]]; auto.
      * intros [[<- | Hin] Hf]; auto.
    + split.
      * intros [Hin Hf]; auto.
      * intros [[<- | Hin] Hf]; [congruence|auto].
Qed.

Lemma mapM_In {A B : Type} (f : A -> result B) (l : list A) (out : list B) :
  mapM f l = Return out ->
  forall b, In b out -> exists a, In a l /\ f a = Return b.
Proof.
  revert out. induction l as [|x l IH]; intros out H b Hb; simpl in H.
  - injection H as <-. destruct Hb.
  - destruct (f x) as [y|] eqn:Hy; [|discriminate].
    cbn [bind] in H.
    destruct (mapM f l) as [ys|]; [|discriminate].
    cbn [bind] in H. injection H as <-.
    destruct Hb as [<- | Hb].
    + exists x. split; [left; reflexivity|exact Hy].
    + destruct (IH ys eq_refl b Hb) as (a & Ha & Hfa).
      exists a. split; [right; exact Ha|exact Hfa].
Qed.

(** ** Gear transit and gear state *)

Section GearProperties.

Variable ezclump : masked_array bool -> list (slice Z).
Variable slices_and : list (slice Z) -> list (slice Z) -> list (slice Z).
Variable find_edges : masked_array Z -> slice Z -> edge_direction -> list Q.



End GearProperties.


(** C7, on a recording during which the gear stays up: the run of
    GearRetracted stops at the length of the recording, 3, and is not
    shortened, where GearExtended shortens the run of a gear that stays
    down; GearExtended itself, finding no run, raises [IndexError]. *)
Theorem gear_retracted_run_not_shortened :
  Z.of_nat (length (raw Examples.gear_up_throughout)) = 3%Z
  /\ GearRetracted.derive Examples.gear_up_throughout = [slice2 0%Z 3%Z]
  /\ GearExtended.derive Examples.gear_down_throughout
     = Return [slice2 0%Z 2%Z]
  /\ GearExtended.derive Examples.gear_up_throughout = Raise IndexError.
Proof.
  repeat split.
Qed.

(** ** Clumps *)

Lemma clump_from_bounds {A : Type} (a : masked_array A) :
  forall pos cur s,
    (forall c, cur = Some c -> (c < pos)%nat) ->
    In s (clump_from pos cur a) ->
    exists b e,
      s = slice2 (Z.of_nat b) (Z.of_nat e)
      /\ (match cur with Some c => c | None => pos end <= b)%nat
      /\ (b < e <= pos + length a)%nat.
Proof.
  induction a as [|x rest IH]; intros pos cur s Hcur Hin.
  - simpl in Hin. destruct cur as [c|]; [|destruct Hin].
    destruct Hin as [<- | []].
    exists c, pos. specialize (Hcur c eq_refl). simpl.
    split; [reflexivity|lia].
  - simpl in Hin. destruct x as [v|].
    + apply IH in Hin.
      * destruct Hin as (b & e & -> & Hb & He).
        exists b, e. split; [reflexivity|].
        destruct cur as [c|]; simpl in *; lia.
      * intros c Hc. injection Hc as <-.
        destruct cur as [c|]; [specialize (Hcur c eq_refl)|]; lia.
    + destruct cur as [c|].
      * destruct Hin as [<- | Hin].
        -- exists c, pos. specialize (Hcur c eq_refl). simpl.
           split; [reflexivity|lia].
        -- apply IH in Hin; [|discriminate].
           destruct Hin as (b & e & -> & Hb & He).
           exists b, e. specialize (Hcur c eq_refl). simpl in *.
           split; [reflexivity|lia].
      * apply IH in Hin; [|discriminate].
        destruct Hin as (b & e & -> & Hb & He).
        exists b, e. simpl in *. split; [reflexivity|lia].
Qed.

Lemma ma_count_le_length {A : Type} (a : masked_array A) :
  (ma_count a <= length a)%nat.
Proof. unfold ma_count. apply filter_length_le. Qed.

(** An array that counts as many valid samples as it has samples has no
    masked sample. *)
Lemma ma_count_full {A : Type} (a : masked_array A) :
  ma_count a = length a ->
  forall n, (n < length a)%nat -> exists v, nth_error a n = Some (Some v).
Proof.
  induction a as [|x rest IH]; intros H n Hn; [simpl in Hn; lia|].
  assert (Hle := ma_count_le_length rest).
  unfold ma_count in H, Hle, IH. simpl in H. destruct x as [w|]; simpl in H.
  - injection H as H. destruct n as [|n]; [exists w; reflexivity|].
    simpl. apply IH; [exact H|simpl in Hn; lia].
  - lia.
Qed.

(** The runs lie within the array; only the run of an empty array is
    empty. *)
Lemma clump_unmasked_bounds {A : Type} (a : masked_array A) (s : slice Z) :
  In s (clump_unmasked a) ->
  exists b e, s = slice2 b e /\ (0 <= b <= e)%Z
              /\ (e <= Z.of_nat (length a))%Z
              /\ (a <> [] -> (b < e)%Z).
Proof.
  unfold clump_unmasked. destruct (ma_count a =? length a)%nat.
  - intros [<- | []]. exists 0%Z, (Z.of_nat (length a)).
    split; [reflexivity|]. split; [lia|]. split; [lia|].
    intro Hne. destruct a; [congruence|simpl; lia].
  - intro Hin. apply clump_from_bounds in Hin; [|discriminate].
    destruct Hin as (b & e & -> & _ & He).
    exists (Z.of_nat b), (Z.of_nat e). split; [reflexivity|lia].
Qed.

Lemma np_getslice_length {A : Type} (a : list A) (s : slice Z) :
  (length (np_getslice a s)
   + Z.to_nat (match start s with
               | Some i => norm_index (Z.of_nat (length a)) i
               | None => 0%Z
               end) <= length a)%nat.
Proof.
  unfold np_getslice. rewrite length_firstn, length_skipn.
  assert (Hlo : (Z.to_nat (match start s with
                           | Some i => norm_index (Z.of_nat (length a)) i
                           | None => 0%Z
                           end) <= length a)%nat).
  { destruct (start s) as [i|]; [|lia].
    unfold norm_index. destruct (i <? 0)%Z eqn:E; [|lia].
    apply Z.ltb_lt in E. lia. }
  lia.
Qed.

Lemma turn_bands_within (turn_rate : masked_array Q) (height_band band : slice Z) :
  match start height_band with
  | Some s => (0 <= s)%Z
  | None => True
  end ->
  In band (Holding.turn_bands turn_rate height_band) ->
  exists b e,
    start band = Some b /\ stop band = Some e
    /\ (0 <= b <= e)%Z
    /\ ((b < e)%Z -> (e <= Z.of_nat (length turn_rate))%Z).
Proof.
  intros Hstart Hin. unfold Holding.turn_bands in Hin.
  assert (Hlen := np_getslice_length turn_rate height_band).
  unfold shift_slices in Hin.
  destruct (start height_band) as [s|].
  - apply in_map_iff in Hin. destruct Hin as (clump & <- & Hclump).
    apply clump_unmasked_bounds in Hclump.
    destruct Hclump as (b & e & -> & Hb & He & _).
    unfold masked_less, masked_where in He. rewrite length_map in He.
    exists (s + b)%Z, (s + e)%Z. cbn.
    split; [reflexivity|]. split; [reflexivity|].
    unfold norm_index in Hlen.
    destruct (s <? 0)%Z eqn:E; [apply Z.ltb_lt in E; lia|].
    lia.
  - apply clump_unmasked_bounds in Hin.
    destruct Hin as (b & e & -> & Hb & He & _).
    unfold masked_less, masked_where in He. rewrite length_map in He.
    exists b, e. cbn. split; [reflexivity|]. split; [reflexivity|]. lia.
Qed.

(** ** Holding *)

Lemma getitem_Z_in_range {A : Type} (l : list A) (i : Z) :
  (0 <= i < Z.of_nat (length l))%Z -> exists a, getitem_Z l i = Return a.
Proof.
  intro H. unfold getitem_Z.
  destruct (i <? 0)%Z eqn:E; [apply Z.ltb_lt in E; lia|].
  rewrite E. apply getitem_in_range. lia.
Qed.

Section HoldingProperties.

Variables HOLDING_MIN_TIME HOLDING_MAX_GSPD KTS_TO_MPS : Q.
Variable bearing_and_distance :
  option Q -> option Q -> option Q -> option Q -> option Q * option Q.

(** The test of [Holding.derive] on a band, spelled out: the band lasts
    more than [HOLDING_MIN_TIME] seconds, and the distance between the
    positions at its first and at its last sample, divided by its
    duration, is below [HOLDING_MAX_GSPD]. *)
Lemma keeps_iff (alt_frequency : Q) (lat lon : masked_array Q)
      (turn_band : slice Z) :
  Holding.keeps HOLDING_MIN_TIME HOLDING_MAX_GSPD KTS_TO_MPS
                bearing_and_distance alt_frequency lat lon turn_band
  = Return true
  <-> exists b e lat1 lon1 lat2 lon2 hold_dist,
      start turn_band = Some b /\ stop turn_band = Some e
      /\ getitem_Z lat b = Return lat1 /\ getitem_Z lon b = Return lon1
      /\ getitem_Z lat (e - 1) = Return lat2
      /\ getitem_Z lon (e - 1) = Return lon2
      /\ snd (bearing_and_distance lat1 lon1 lat2 lon2) = Some hold_dist
      /\ HOLDING_MIN_TIME * alt_frequency < Holding.hold_sec b e
      /\ Holding.average_groundspeed KTS_TO_MPS hold_dist b e
         < HOLDING_MAX_GSPD.
Proof.
  unfold Holding.keeps. split.
  - intro H.
    destruct (start turn_band) as [b|]; [|discriminate].
    destruct (stop turn_band) as [e|]; [|discriminate].
    destruct (Qltb (HOLDING_MIN_TIME * alt_frequency) (Holding.hold_sec b e))
      eqn:Hlong; [|discriminate].
    destruct (getitem_Z lat b) as [lat1|] eqn:Hlat1; [|discriminate].
    destruct (getitem_Z lon b) as [lon1|] eqn:Hlon1; [|discriminate].
    cbn [bind] in H.
    destruct (getitem_Z lat (e - 1)) as [lat2|] eqn:Hlat2; [|discriminate].
    destruct (getitem_Z lon (e - 1)) as [lon2|] eqn:Hlon2; [|discriminate].
    cbn [bind] in H.
    destruct (snd (bearing_and_distance lat1 lon1 lat2 lon2))
      as [hold_dist|] eqn:Hdist; [|discriminate].
    injection H as Hslow.
    exists b, e, lat1, lon1, lat2, lon2, hold_dist.
    apply Qltb_lt in Hlong, Hslow. repeat split; auto.
  - intros (b & e & lat1 & lon1 & lat2 & lon2 & hold_dist & -> & ->
            & -> & -> & -> & -> & Hdist & Hlong & Hslow).
    apply Qltb_lt in Hlong, Hslow. rewrite Hlong. cbn [bind].
    rewrite Hdist, Hslow. reflexivity.
Qed.

Lemma hold_sec_positive (limit : Q) (b e : Z) :
  0 <= limit -> limit < Holding.hold_sec b e -> (b < e)%Z.
Proof.
  intros Hmin Hlong. unfold Holding.hold_sec, ZtoQ in Hlong.
  assert (H0 : inject_Z 0 < inject_Z (e - b)).
  { apply Qle_lt_trans with (y := limit); [exact Hmin|exact Hlong]. }
  rewrite <- Zlt_Qlt in H0. lia.
Qed.

Lemma keeps_total (alt_frequency : Q) (lat lon : masked_array Q)
      (turn_band : slice Z) (b e : Z) :
  0 <= HOLDING_MIN_TIME * alt_frequency ->
  start turn_band = Some b -> stop turn_band = Some e ->
  (0 <= b <= e)%Z ->
  ((b < e)%Z ->
   (e <= Z.of_nat (length lat))%Z /\ (e <= Z.of_nat (length lon))%Z) ->
  exists kept,
    Holding.keeps HOLDING_MIN_TIME HOLDING_MAX_GSPD KTS_TO_MPS
                  bearing_and_distance alt_frequency lat lon turn_band
    = Return kept.
Proof.
  intros Hmin Hb He Hbe Hlen. unfold Holding.keeps. rewrite Hb, He.
  destruct (Qltb (HOLDING_MIN_TIME * alt_frequency) (Holding.hold_sec b e))
    eqn:Hlong; [|eauto].
  apply Qltb_lt in Hlong.
  assert (Hlt := hold_sec_positive _ b e Hmin Hlong).
  destruct (Hlen Hlt) as [Hlat Hlon].
  destruct (getitem_Z_in_range lat b) as [lat1 ->]; [lia|].
  destruct (getitem_Z_in_range lon b) as [lon1 ->]; [lia|].
  destruct (getitem_Z_in_range lat (e - 1)) as [lat2 ->]; [lia|].
  destruct (getitem_Z_in_range lon (e - 1)) as [lon2 ->]; [lia|].
  cbn [bind].
  destruct (snd (bearing_and_distance lat1 lon1 lat2 lon2)); eauto.
Qed.

(** The bands kept among bands that lie within the position arrays, an
    empty band apart. *)
Lemma hold_bands_keeps_iff (alt_frequency : Q) (lat lon : masked_array Q)
      (bands : list (slice Z)) :
  0 <= HOLDING_MIN_TIME * alt_frequency ->
  (forall band, In band bands ->
     exists b e, start band = Some b /\ stop band = Some e
                 /\ (0 <= b <= e)%Z
                 /\ ((b < e)%Z ->
                     (e <= Z.of_nat (length lat))%Z
                     /\ (e <= Z.of_nat (length lon))%Z)) ->
  exists kept,
    Holding.hold_bands HOLDING_MIN_TIME HOLDING_MAX_GSPD KTS_TO_MPS
                       bearing_and_distance alt_frequency lat lon bands
    = Return kept
    /\ (forall band,
           In band kept
           <-> In band bands
               /\ exists b e lat1 lon1 lat2 lon2 hold_dist,
                 start band = Some b /\ stop band = Some e
                 /\ getitem_Z lat b = Return lat1
                 /\ getitem_Z lon b = Return lon1
                 /\ getitem_Z lat (e - 1) = Return lat2
                 /\ getitem_Z lon (e - 1) = Return lon2
                 /\ snd (bearing_and_distance lat1 lon1 lat2 lon2)
                    = Some hold_dist
                 /\ HOLDING_MIN_TIME * alt_frequency < Holding.hold_sec b e
                 /\ Holding.average_groundspeed KTS_TO_MPS hold_dist b e
                    < HOLDING_MAX_GSPD)
    /\ (forall band b e,
           start band = Some b -> stop band = Some e ->
           Holding.hold_sec b e == HOLDING_MIN_TIME * alt_frequency ->
           ~ In band kept).
Proof.
  intros Hmin Hbands. unfold Holding.hold_bands.
  destruct (filterM_spec
              (Holding.keeps HOLDING_MIN_TIME HOLDING_MAX_GSPD KTS_TO_MPS
                             bearing_and_distance alt_frequency lat lon)
              bands) as (kept & Hkept & Hiff).
  { intros band Hin.
    destruct (Hbands band Hin) as (b & e & Hb & He & Hbe & Hlen).
    exact (keeps_total alt_frequency lat lon band b e Hmin Hb He Hbe Hlen). }
  exists kept. split; [exact Hkept|]. split.
  - intro band. rewrite Hiff, keeps_iff. reflexivity.
  - intros band b e Hb He Hexact Hin.
    apply Hiff in Hin. destruct Hin as [_ Hkeeps].
    apply keeps_iff in Hkeeps.
    destruct Hkeeps as (b' & e' & _ & _ & _ & _ & _ & Hb' & He' & _ & _ & _
                        & _ & _ & Hlong & _).
    rewrite Hb in Hb'. rewrite He in He'.
    injection Hb' as <-. injection He' as <-.
    rewrite Hexact in Hlong. apply (Qlt_irrefl _ Hlong).
Qed.

End HoldingProperties.

(** C8, on a flight recorded at 2 Hz.  The turn band of the samples 10 to
    491 lasts 241 seconds, more than the [HOLDING_MIN_TIME] of 240
    seconds, and the positions at its two ends are 12398.2425 m apart: an
    average groundspeed of 100 kt, above the [HOLDING_MAX_GSPD] of 60 kt.
    The rule divides the distance by the 482 samples of the band, finds
    50 kt, and keeps the band.  It gives the band up when the quotient by
    the number of samples reaches 60 kt, as with ends 22239 m apart. *)
Theorem holding_keeps_band_above_speed_limit :
  Holding.derive 240 60 (514444 # 1000000) Examples.meridian_distance
                 Flights.height_bands Flights.wide_turn_rate
                 Flights.wide_turn_north Flights.wide_turn_north
                 Flights.wide_turn_north Flights.wide_turn_east
  = Return [slice2 10%Z 492%Z]
  /\ frequency Flights.wide_turn_north == 2
  /\ ZtoQ (492 - 10) / frequency Flights.wide_turn_north == 241
  /\ 240 < 241
  /\ getitem_Z (array Flights.wide_turn_north) 10 = Return (Some 51)
  /\ getitem_Z (array Flights.wide_turn_north) (492 - 1)
     = Return (Some (511115 # 10000))
  /\ getitem_Z (array Flights.wide_turn_east) 10 = Return (Some 0)
  /\ getitem_Z (array Flights.wide_turn_east) (492 - 1) = Return (Some 0)
  /\ snd (Examples.meridian_distance (Some 51) (Some 0)
                                     (Some (511115 # 10000)) (Some 0))
     = Some (123982425 # 10000)
  /\ 60 < (123982425 # 10000) / (514444 # 1000000) / 241
  /\ (123982425 # 10000) / (514444 # 1000000) / ZtoQ (492 - 10) < 60
  /\ Holding.derive 240 60 (514444 # 1000000) Examples.meridian_distance
                    Flights.height_bands Flights.wide_turn_rate
                    Flights.wider_turn_north Flights.wider_turn_north
                    Flights.wider_turn_north Flights.wide_turn_east
     = Return []
  /\ 60 <= 22239 / (514444 # 1000000) / ZtoQ (492 - 10).
Proof.
  repeat split; vm_compute; try reflexivity; discriminate.
Qed.

(** ** Cruise and TaxiOut *)

Section IntervalProperties.

Variable get_first get_last : list Q -> slice Q -> option Q.
Variable slices_overlap : slice Q -> slice Q -> bool.

Lemma cruise_interval (tocs tods : list Q) (ccd p : slice Q) :
  Cruise.cruise get_first get_last tocs tods ccd = Return p ->
  (exists e, stop p = Some e)
  /\ (forall a b, start p = Some a -> stop p = Some b -> a < b)
  /\ (start p = None -> start ccd = None).
Proof.
  unfold Cruise.cruise.
  set (begin := match get_first tocs ccd with
                | Some toc => Some toc
                | None => start ccd
                end).
  set (end_ := match get_last tods ccd with
               | Some tod => Some tod
               | None => stop ccd
               end).
  assert (Hbegin : begin = None -> start ccd = None).
  { subst begin. destruct (get_first tocs ccd); [discriminate|auto]. }
  clearbody begin end_.
  destruct (py2_le end_ begin) eqn:Hle; intro H.
  - destruct begin as [b|]; [|discriminate].
    injection H as <-. cbn.
    split; [eauto|]. split; [|discriminate].
    intros a b' Ha Hb'. injection Ha as <-. injection Hb' as <-. lra.
  - injection H as <-. cbn.
    destruct end_ as [e|]; [|discriminate].
    split; [eauto|]. split; [|exact Hbegin].
    intros a b Ha Hb. subst begin. injection Hb as <-.
    cbn in Hle. apply Qltb_lt. unfold Qltb. unfold Qleb in Hle.
    rewrite Hle. reflexivity.
Qed.

Lemma for_gnds_phases (toff : slice Q) (gnds phases : list (slice Q)) :
  TaxiOut.for_gnds slices_overlap toff gnds = Return phases ->
  forall p, In p phases ->
    exists gnd gnd_start toff_start,
      In gnd gnds /\ slices_overlap gnd toff = true
      /\ start gnd = Some gnd_start /\ start toff = Some toff_start
      /\ p = slice2 (gnd_start + 1) (toff_start - 1).
Proof.
  revert phases. induction gnds as [|gnd rest IH]; intros phases H p Hp.
  - injection H as <-. destruct Hp.
  - simpl in H. destruct (slices_overlap gnd toff) eqn:Hover.
    + destruct (start gnd) as [gs|] eqn:Hgs; [|discriminate].
      destruct (start toff) as [ts|] eqn:Hts; [|discriminate].
      destruct (TaxiOut.for_gnds slices_overlap toff rest) as [more|];
        [|discriminate].
      cbn [bind] in H. injection H as <-.
      destruct Hp as [<- | Hp].
      * exists gnd, gs, ts. repeat split; auto. left. reflexivity.
      * destruct (IH more eq_refl p Hp) as (g & a & b & Hin & Hrest).
        exists g, a, b. split; [right; exact Hin|exact Hrest].
    + destruct (IH phases H p Hp) as (g & a & b & Hin & Hrest).
      exists g, a, b. split; [right; exact Hin|exact Hrest].
Qed.

Lemma mapM_pairs {A B : Type} (f : A -> result B) (l : list A)
      (out : list B) :
  mapM f l = Return out -> Forall2 (fun a b => f a = Return b) l out.
Proof.
  revert out. induction l as [|x l IH]; intros out H; simpl in H.
  - injection H as <-. constructor.
  - destruct (f x) as [y|] eqn:Hy; [|discriminate]. cbn [bind] in H.
    destruct (mapM f l) as [ys|]; [|discriminate]. cbn [bind] in H.
    injection H as <-. constructor; [exact Hy|apply IH; reflexivity].
Qed.

(** X19.  Cruise creates one interval per climb-cruise-descent section,
    in order.  Each has its stop set and, when its start is set, starts
    strictly before it stops; its start is unset only when the start of
    its own section is unset and no top of climb is found within that
    section. *)
Theorem cruise_phases_ordered (ccds : list (slice Q)) (tocs tods : list Q)
        (phases : list (slice Q)) :
  Cruise.derive get_first get_last ccds tocs tods = Return phases ->
  Forall2 (fun ccd p =>
             (exists e, stop p = Some e)
             /\ (forall a b, start p = Some a -> stop p = Some b -> a < b)
             /\ (start p = None
                 -> start ccd = None /\ get_first tocs ccd = None))
          ccds phases.
Proof.
  intro H. apply mapM_pairs in H.
  induction H as [|ccd p ccds phases Hcruise _ IH]; constructor;
    [|exact IH].
  destruct (cruise_interval tocs tods ccd p Hcruise) as (Hstop & Hlt & Hnone).
  split; [exact Hstop|]. split; [exact Hlt|].
  intro Hstart. split; [exact (Hnone Hstart)|].
  unfold Cruise.cruise in Hcruise.
  destruct (get_first tocs ccd) as [toc|]; [|reflexivity].
  destruct (py2_le _ _) in Hcruise; injection Hcruise as <-;
    discriminate Hstart.
Qed.

End IntervalProperties.

(** C3, on a takeoff that starts one sample after the grounded section,
    which it overlaps: the interval of TaxiOut starts at 1 and stops at
    0.  Cruise, on a section whose last top of descent comes before its
    first top of climb, moves the stop to one sample after the start. *)
Theorem taxi_out_starts_after_it_stops :
  SpecLibrary.slices_overlap (slice2 0 100) (slice2 1 50) = true
  /\ TaxiOut.derive SpecLibrary.slices_overlap [slice2 0 100] [slice2 1 50]
     = Return [slice2 (0 + 1) (1 - 1)]
  /\ 1 - 1 < 0 + 1
  /\ Cruise.derive SpecLibrary.get_first SpecLibrary.get_last
                   [slice2 100 900] [700] [300]
     = Return [slice2 700 (700 + 1)].
Proof.
  split; [reflexivity|]. split; [reflexivity|]. split; reflexivity.
Qed.

(** X19 on a flight with a cruise from sample 300 to sample 700, after a
    section that starts with the data and has no top of climb. *)
Lemma cruise_phases_ordered_witness :
  Forall2 (fun ccd p =>
             (exists e, stop p = Some e)
             /\ (forall a b, start p = Some a -> stop p = Some b -> a < b)
             /\ (start p = None
                 -> start ccd = None
                    /\ SpecLibrary.get_first [300] ccd = None))
          [Slice None (Some 200) None; slice2 250 900]
          [Slice None (Some 200) None; slice2 300 700].
Proof.
  apply (cruise_phases_ordered SpecLibrary.get_first SpecLibrary.get_last
           [Slice None (Some 200) None; slice2 250 900] [300] [700]).
  vm_compute. reflexivity.
Defined.

(** ** Takeoff *)

Section TakeoffProperties.

Variable index_at_value : index_at_value_t.
Variables HEADING_TURN_ONTO_RUNWAY INITIAL_CLIMB_THRESHOLD : Q.

(** When the turn onto the runway is not found and the five minutes
    before the takeoff run reach back to the start of the data, the
    start of the phase falls back to 0, which the final test takes for
    a missing value: no phase is created, wherever the climb ends. *)
Lemma takeoff_fallback_at_zero_discarded
      (head alt_aal : parameter) (speedy : slice Z) (takeoff_run : Z)
      (takeoff_end : option Q) :
  start speedy = Some takeoff_run ->
  Takeoff.search_begin index_at_value HEADING_TURN_ONTO_RUNWAY head
                       takeoff_run = Return None ->
  Takeoff.first_index head takeoff_run == 0 ->
  Takeoff.search_end index_at_value INITIAL_CLIMB_THRESHOLD alt_aal
                     takeoff_run = Return takeoff_end ->
  Takeoff.derive index_at_value HEADING_TURN_ONTO_RUNWAY
                 INITIAL_CLIMB_THRESHOLD head alt_aal [speedy] = Return [].
Proof.
  intros Hstart Hbegin Hzero Hend. cbn [Takeoff.derive].
  rewrite Hstart, Hbegin. cbn [bind]. rewrite Hend. cbn [bind truthy].
  apply Qeq_bool_iff in Hzero. rewrite Hzero. reflexivity.
Qed.

End TakeoffProperties.

(** C9, on a takeoff run from the start of the data: the heading never
    leaves the runway heading, the five-minute boundary is clipped at 0
    and the aircraft climbs through the threshold at index 23.5, yet no
    Takeoff phase is created. *)
Theorem takeoff_from_data_start_not_created :
  Takeoff.first_index Examples.runway_heading 10 = 0
  /\ Takeoff.search_begin SpecLibrary.index_at_value 15
                          Examples.runway_heading 10 = Return None
  /\ Takeoff.search_end SpecLibrary.index_at_value 35 Examples.climb_out 10
     = Return (Some (47 # 2))
  /\ Takeoff.derive SpecLibrary.index_at_value 15 35 Examples.runway_heading
                    Examples.climb_out Examples.fast = Return [].
Proof.
  repeat split; vm_compute; reflexivity.
Qed.

(** ** Runs of valid samples *)

Lemma slice2_of_nat_inj (b e b' e' : nat) :
  slice2 (Z.of_nat b) (Z.of_nat e) = slice2 (Z.of_nat b') (Z.of_nat e') ->
  b = b' /\ e = e'.
Proof.
  intro H. injection H as Hb He. split; apply Nat2Z.inj; assumption.
Qed.

(** The positions within the runs read from [pos] on: those of the run
    being read, and the valid samples to come. *)
Lemma clump_from_covered {A : Type} (a : masked_array A) :
  forall pos cur (i : nat),
    (forall c, cur = Some c -> (c < pos)%nat) ->
    (exists b e,
        In (slice2 (Z.of_nat b) (Z.of_nat e)) (clump_from pos cur a)
        /\ (b <= i < e)%nat)
    <-> ((exists c, cur = Some c /\ (c <= i < pos)%nat)
         \/ ((pos <= i)%nat
             /\ exists v, nth_error a (i - pos) = Some (Some v))).
Proof.
  induction a as [|x rest IH]; intros pos cur i Hcur.
  - simpl. split.
    + intros (b & e & Hin & Hi). destruct cur as [c|]; [|destruct Hin].
      destruct Hin as [Heq | []].
      apply slice2_of_nat_inj in Heq. destruct Heq as [-> ->].
      left. exists b. auto.
    + intros [(c & -> & Hi) | (_ & v & Hv)].
      * exists c, pos. split; [left; reflexivity|exact Hi].
      * destruct (i - pos)%nat; discriminate.
  - destruct x as [w|]; simpl.
    + rewrite IH.
      2:{ intros c Hc. injection Hc as <-.
          destruct cur as [c|]; [specialize (Hcur c eq_refl)|]; lia. }
      split.
      * intros [(c & Hc & Hi) | (Hi & v & Hv)].
        -- injection Hc as <-.
           destruct cur as [c|].
           ++ destruct (Nat.eq_dec i pos) as [->|Hne].
              ** right. split; [lia|]. rewrite Nat.sub_diag. exists w.
                 reflexivity.
              ** left. exists c. split; [reflexivity|lia].
           ++ right. assert (i = pos) as -> by lia.
              split; [lia|]. rewrite Nat.sub_diag. exists w. reflexivity.
        -- right. split; [lia|]. exists v.
           replace (i - pos)%nat with (S (i - S pos)) by lia. exact Hv.
      * intros [(c & -> & Hi) | (Hi & v & Hv)].
        -- left. exists c. split; [reflexivity|lia].
        -- destruct (Nat.eq_dec i pos) as [->|Hne].
           ++ left. destruct cur as [c|].
              ** exists c. split; [reflexivity|].
                 specialize (Hcur c eq_refl). lia.
              ** exists pos. split; [reflexivity|lia].
           ++ right. split; [lia|]. exists v.
              replace (i - pos)%nat with (S (i - S pos)) in Hv by lia.
              exact Hv.
    + destruct cur as [c|].
      * split.
        -- intros (b & e & [Heq | Hin] & Hi).
           ++ apply slice2_of_nat_inj in Heq. destruct Heq as [-> ->].
              left. exists b. auto.
           ++ assert (Hrest : exists b e,
                        In (slice2 (Z.of_nat b) (Z.of_nat e))
                           (clump_from (S pos) None rest)
                        /\ (b <= i < e)%nat) by eauto.
              apply IH in Hrest; [|discriminate].
              destruct Hrest as [(c' & Hc' & _) | (Hi' & v & Hv)];
                [discriminate|].
              right. split; [lia|]. exists v.
              replace (i - pos)%nat with (S (i - S pos)) by lia. exact Hv.
        -- intros [(c' & Hc' & Hi) | (Hi & v & Hv)].
           ++ injection Hc' as <-. exists c, pos.
              split; [left; reflexivity|exact Hi].
           ++ destruct (Nat.eq_dec i pos) as [->|Hne].
              { rewrite Nat.sub_diag in Hv. discriminate. }
              assert (Hrest : exists b e,
                        In (slice2 (Z.of_nat b) (Z.of_nat e))
                           (clump_from (S pos) None rest)
                        /\ (b <= i < e)%nat).
              { apply IH; [discriminate|]. right. split; [lia|]. exists v.
                replace (i - pos)%nat with (S (i - S pos)) in Hv by lia.
                exact Hv. }
              destruct Hrest as (b & e & Hin & Hbe).
              exists b, e. split; [right; exact Hin|exact Hbe].
      * rewrite IH by discriminate. split.
        -- intros [(c' & Hc' & _) | (Hi & v & Hv)]; [discriminate|].
           right. split; [lia|]. exists v.
           replace (i - pos)%nat with (S (i - S pos)) by lia. exact Hv.
        -- intros [(c' & Hc' & _) | (Hi & v & Hv)]; [discriminate|].
           destruct (Nat.eq_dec i pos) as [->|Hne].
           { rewrite Nat.sub_diag in Hv. discriminate. }
           right. split; [lia|]. exists v.
           replace (i - pos)%nat with (S (i - S pos)) in Hv by lia.
           exact Hv.
Qed.

(** The runs come in order, each stopping before the next starts. *)
Lemma clump_from_apart {A : Type} (a : masked_array A) :
  forall pos cur,
    (forall c, cur = Some c -> (c < pos)%nat) ->
    StronglySorted apart (clump_from pos cur a).
Proof.
  induction a as [|x rest IH]; intros pos cur Hcur; simpl.
  - destruct cur; repeat constructor.
  - destruct x as [w|].
    + apply IH. intros c Hc. injection Hc as <-.
      destruct cur as [c|]; [specialize (Hcur c eq_refl)|]; lia.
    + destruct cur as [c|]; [|apply IH; discriminate].
      constructor; [apply IH; discriminate|].
      apply Forall_forall. intros s Hs.
      apply clump_from_bounds in Hs; [|discriminate].
      destruct Hs as (b & e & -> & Hb & He).
      exists (Z.of_nat pos), (Z.of_nat b). simpl in Hb.
      split; [reflexivity|]. split; [reflexivity|lia].
Qed.

(** [np.ma.clump_unmasked] covers the valid samples and nothing else. *)
Lemma clump_unmasked_covered {A : Type} (a : masked_array A) (i : Z) :
  covered i (clump_unmasked a) <-> exists v, reads a i v.
Proof.
  unfold clump_unmasked.
  destruct (ma_count a =? length a)%nat eqn:Hfull.
  { apply Nat.eqb_eq in Hfull. unfold covered, within, reads. split.
    - intros (s & [<- | []] & b & e & Hb & He & Hi). cbn in Hb, He.
      injection Hb as <-. injection He as <-.
      destruct (ma_count_full a Hfull (Z.to_nat i)) as [v Hv]; [lia|].
      exists v. split; [lia|exact Hv].
    - intros (v & Hi & Hv).
      assert (Hlt : (Z.to_nat i < length a)%nat).
      { apply nth_error_Some. rewrite Hv. discriminate. }
      exists (slice2 0%Z (Z.of_nat (length a))).
      split; [left; reflexivity|].
      exists 0%Z, (Z.of_nat (length a)).
      split; [reflexivity|]. split; [reflexivity|lia]. }
  unfold covered, within, reads. split.
  - intros (s & Hin & b & e & Hb & He & Hi).
    assert (Hin' := Hin).
    apply clump_from_bounds in Hin'; [|discriminate].
    destruct Hin' as (b' & e' & -> & _ & _). cbn in Hb, He.
    injection Hb as <-. injection He as <-.
    assert (Hcov : exists b e,
               In (slice2 (Z.of_nat b) (Z.of_nat e)) (clump_from 0 None a)
               /\ (b <= Z.to_nat i < e)%nat).
    { exists b', e'. split; [exact Hin|lia]. }
    apply clump_from_covered in Hcov; [|discriminate].
    destruct Hcov as [(c & Hc & _) | (_ & v & Hv)]; [discriminate|].
    rewrite Nat.sub_0_r in Hv. exists v. split; [lia|exact Hv].
  - intros (v & Hi & Hv).
    assert (Hcov : exists b e,
               In (slice2 (Z.of_nat b) (Z.of_nat e)) (clump_from 0 None a)
               /\ (b <= Z.to_nat i < e)%nat).
    { apply clump_from_covered; [discriminate|]. right.
      split; [lia|]. rewrite Nat.sub_0_r. exists v. exact Hv. }
    destruct Hcov as (b & e & Hin & Hbe).
    exists (slice2 (Z.of_nat b) (Z.of_nat e)). split; [exact Hin|].
    exists (Z.of_nat b), (Z.of_nat e).
    split; [reflexivity|]. split; [reflexivity|lia].
Qed.

Lemma clump_unmasked_apart {A : Type} (a : masked_array A) :
  StronglySorted apart (clump_unmasked a).
Proof.
  unfold clump_unmasked. destruct (ma_count a =? length a)%nat.
  - repeat constructor.
  - apply clump_from_apart. discriminate.
Qed.

Lemma masked_where_reads {A : Type} (cond : A -> bool) (a : masked_array A)
      (i : Z) (v : A) :
  reads (masked_where cond a) i v <-> reads a i v /\ cond v = false.
Proof.
  unfold reads, masked_where. rewrite nth_error_map.
  destruct (nth_error a (Z.to_nat i)) as [[w|]|]; simpl.
  - destruct (cond w) eqn:E; split.
    + intros [_ H]. discriminate.
    + intros [[_ H] Hc]. injection H as <-. congruence.
    + intros [Hi H]. injection H as <-. auto.
    + intros [[Hi H] _]. injection H as <-. auto.
  - split; [intros [_ H]|intros [[_ H] _]]; discriminate.
  - split; [intros [_ H]|intros [[_ H] _]]; discriminate.
Qed.

(** ** GearRetracted and GearExtended *)

Lemma masked_equal_clumps (a : masked_array Z) (value : Z) :
  let clumps := clump_unmasked (masked_equal a value) in
  (forall s, In s clumps ->
     exists b e, s = slice2 b e
                 /\ (0 <= b <= e)%Z /\ (e <= Z.of_nat (length a))%Z
                 /\ (a <> [] -> (b < e)%Z))
  /\ StronglySorted apart clumps
  /\ (forall i, covered i clumps <-> exists v, reads a i v /\ v <> value).
Proof.
  intro clumps. split; [|split].
  - intros s Hs. apply clump_unmasked_bounds in Hs.
    unfold masked_equal, masked_where in Hs. rewrite length_map in Hs.
    destruct Hs as (b & e & -> & Hb & He & Hne).
    exists b, e. split; [reflexivity|]. split; [exact Hb|].
    split; [exact He|]. intro Ha. apply Hne. destruct a; [congruence|].
    discriminate.
  - apply clump_unmasked_apart.
  - intro i. unfold clumps. rewrite clump_unmasked_covered.
    unfold masked_equal. split.
    + intros (v & Hv). apply masked_where_reads in Hv.
      destruct Hv as [Hv Hne]. exists v. split; [exact Hv|].
      apply Z.eqb_neq. exact Hne.
    + intros (v & Hv & Hne). exists v. apply masked_where_reads.
      split; [exact Hv|]. apply Z.eqb_neq. exact Hne.
Qed.

(** X1.  The phases of GearRetracted are the maximal runs of valid
    samples that do not read 1 ('Down'): they cover those samples and no
    other, they lie within the recording, and they come in order with at
    least one sample between two of them.  None is empty when the
    recording has a sample; an empty recording gives the one empty phase
    [slice(0, 0)]. *)
Theorem gear_retracted_maximal_runs (gear_down : multistate) :
  let phases := GearRetracted.derive gear_down in
  (forall i, covered i phases
             <-> exists v, reads (raw gear_down) i v /\ v <> 1%Z)
  /\ StronglySorted apart phases
  /\ (forall s, In s phases ->
        exists b e, s = slice2 b e /\ (0 <= b <= e)%Z
                    /\ (e <= Z.of_nat (length (raw gear_down)))%Z
                    /\ (raw gear_down <> [] -> (b < e)%Z))
  /\ (raw gear_down = [] -> phases = [slice2 0%Z 0%Z]).
Proof.
  intro phases.
  destruct (masked_equal_clumps (raw gear_down) 1) as (Hbounds & Hapart & Hcov).
  split; [exact Hcov|]. split; [exact Hapart|]. split; [exact Hbounds|].
  intro Hempty. unfold phases, GearRetracted.derive. rewrite Hempty.
  reflexivity.
Qed.

Lemma trap_last (len : Z) (front : list (slice Z)) (last : slice Z) :
  GearExtended.trap len (front ++ [last])
  = Return (if match stop last with
               | Some e => (e =? len)%Z
               | None => false
               end
            then front ++ [Slice (start last)
                                 (option_map (fun e => (e - 1)%Z) (stop last))
                                 None]
            else front ++ [last]).
Proof.
  unfold GearExtended.trap. rewrite rev_app_distr. simpl.
  rewrite rev_involutive.
  destruct (match stop last with
            | Some e => (e =? len)%Z
            | None => false
            end); reflexivity.
Qed.

Lemma sorted_before_last {A : Type} (R : A -> A -> Prop) (l : list A) (x : A) :
  StronglySorted R (l ++ [x]) -> Forall (fun y => R y x) l.
Proof.
  induction l as [|y l IH]; intro H; [constructor|].
  simpl in H. inversion H as [|? ? Hsorted Hall]; subst.
  constructor; [|apply IH; exact Hsorted].
  rewrite Forall_forall in Hall. apply Hall.
  apply in_or_app. right. left. reflexivity.
Qed.

(** X2.  GearExtended raises [IndexError] exactly when the recording has
    a sample and no valid sample of the gear differs from 0 ('Up'), and
    returns its phases otherwise; on an empty recording it returns the one
    phase [slice(0, -1)]. *)
Theorem gear_extended_fails_without_down (gear_down : multistate) :
  (GearExtended.derive gear_down = Raise IndexError
   <-> raw gear_down <> []
       /\ forall i v, reads (raw gear_down) i v -> v = 0%Z)
  /\ ((exists phases, GearExtended.derive gear_down = Return phases)
      <-> raw gear_down = []
          \/ exists i v, reads (raw gear_down) i v /\ v <> 0%Z)
  /\ (raw gear_down = []
      -> GearExtended.derive gear_down = Return [slice2 0%Z (-1)%Z]).
Proof.
  assert (Hempty : raw gear_down = []
                   -> GearExtended.derive gear_down
                      = Return [slice2 0%Z (-1)%Z]).
  { intro H. unfold GearExtended.derive. rewrite H. reflexivity. }
  assert (Hcase : raw gear_down = [] \/ raw gear_down <> []).
  { destruct (raw gear_down); [left; reflexivity|right; discriminate]. }
  destruct Hcase as [Hraw|Hne].
  { rewrite (Hempty Hraw). split; [|split].
    - split; [discriminate|]. intros [Hne _]. congruence.
    - split; [left; exact Hraw|eauto].
    - reflexivity. }
  clear Hempty.
  destruct (masked_equal_clumps (raw gear_down) 0) as (Hbounds & _ & Hcov).
  unfold GearExtended.derive.
  destruct (clump_unmasked (masked_equal (raw gear_down) 0)) as [|s l] eqn:E.
  - assert (Hnone : forall i v, reads (raw gear_down) i v -> v = 0%Z).
    { intros i v Hv. destruct (Z.eq_dec v 0) as [Hz|Hz]; [exact Hz|].
      assert (Hc : covered i []) by (apply Hcov; eauto).
      destruct Hc as (s & [] & _). }
    split; [|split].
    + split; [intros _; split; [exact Hne|exact Hnone]|reflexivity].
    + split.
      * intros (phases & H). discriminate.
      * intros [Hnil | (i & v & Hv & Hd)]; [congruence|].
        elim Hd. exact (Hnone i v Hv).
    + intro Hnil. congruence.
  - assert (Hsome : exists i v, reads (raw gear_down) i v /\ v <> 0%Z).
    { destruct (Hbounds s (or_introl eq_refl)) as (b & e & -> & Hb & He & Hlt).
      specialize (Hlt Hne).
      exists b. apply (Hcov b). exists (slice2 b e).
      split; [left; reflexivity|].
      exists b, e. split; [reflexivity|]. split; [reflexivity|lia]. }
    destruct (exists_last (l := s :: l)) as (front & last & Hl);
      [discriminate|].
    rewrite Hl, trap_last. split; [|split].
    + split; [intro H; discriminate|].
      intros [_ Hnone]. destruct Hsome as (i & v & Hv & Hd).
      elim Hd. exact (Hnone i v Hv).
    + split; [intros _; right; exact Hsome|intros _; eauto].
    + intro Hnil. congruence.
Qed.

(** X3.  The phases GearExtended returns cover the valid samples that
    differ from 0 ('Up') except the last sample of the recording, and no
    other sample.  When the recording has a sample they stop before its
    end and may be empty but not reversed; on an empty recording the one
    phase is the reversed [slice(0, -1)]. *)
Theorem gear_extended_leaves_last_sample (gear_down : multistate)
        (phases : list (slice Z)) :
  GearExtended.derive gear_down = Return phases ->
  let len := Z.of_nat (length (raw gear_down)) in
  (raw gear_down <> [] ->
   forall s, In s phases ->
     exists b e, s = slice2 b e /\ (0 <= b <= e)%Z /\ (e < len)%Z)
  /\ (forall i, covered i phases
                <-> (exists v, reads (raw gear_down) i v /\ v <> 0%Z)
                    /\ i <> (len - 1)%Z)
  /\ (raw gear_down = [] -> phases = [slice2 0%Z (-1)%Z]).
Proof.
  intros H len.
  assert (Hcase : raw gear_down = [] \/ raw gear_down <> []).
  { destruct (raw gear_down); [left; reflexivity|right; discriminate]. }
  destruct Hcase as [Hraw|Hne].
  { unfold GearExtended.derive in H. rewrite Hraw in H.
    injection H as <-. split; [congruence|]. split; [|reflexivity].
    intro i. unfold covered, within, reads. rewrite Hraw. split.
    - intros (s & [<- | []] & b & e & Hb & He & Hi). cbn in Hb, He.
      injection Hb as <-. injection He as <-. lia.
    - intros [(v & [_ Hv] & _) _]. destruct (Z.to_nat i); discriminate. }
  cut ((forall s, In s phases ->
          exists b e, s = slice2 b e /\ (0 <= b <= e)%Z /\ (e < len)%Z)
       /\ (forall i, covered i phases
                     <-> (exists v, reads (raw gear_down) i v /\ v <> 0%Z)
                         /\ i <> (len - 1)%Z)).
  { intros [Hb Hc]. split; [intros _; exact Hb|]. split; [exact Hc|].
    intro Hnil. congruence. }
  destruct (masked_equal_clumps (raw gear_down) 0) as (Hbounds0 & Hapart & Hcov).
  assert (Hbounds : forall s,
            In s (clump_unmasked (masked_equal (raw gear_down) 0)) ->
            exists b e, s = slice2 b e /\ (0 <= b < e)%Z
                        /\ (e <= Z.of_nat (length (raw gear_down)))%Z).
  { intros s Hs. destruct (Hbounds0 s Hs) as (b & e & -> & Hb & He & Hlt).
    specialize (Hlt Hne). exists b, e. split; [reflexivity|lia]. }
  clear Hbounds0.
  unfold GearExtended.derive in H. fold len in H, Hbounds.
  set (clumps := clump_unmasked (masked_equal (raw gear_down) 0)) in *.
  assert (Hcov' : forall i, (exists v, reads (raw gear_down) i v /\ v <> 0%Z)
                            <-> covered i clumps)
    by (intro i; symmetry; apply Hcov).
  clear Hcov.
  destruct clumps as [|s l] eqn:E; [discriminate|].
  destruct (exists_last (l := s :: l)) as (front & last & Hl); [discriminate|].
  rewrite Hl in *. clear E Hl s l.
  rewrite trap_last in H.
  assert (Hfront := sorted_before_last _ _ _ Hapart).
  rewrite Forall_forall in Hfront.
  destruct (Hbounds last) as (bl & el & -> & Hbl & Hel);
    [apply in_or_app; right; left; reflexivity|].
  assert (Hfront' : forall s, In s front ->
            exists b e, s = slice2 b e /\ (0 <= b < e)%Z /\ (e < bl)%Z).
  { intros s Hs.
    destruct (Hbounds s) as (b & e & -> & Hb & He);
      [apply in_or_app; left; exact Hs|].
    destruct (Hfront _ Hs) as (e' & b' & He' & Hb' & Hlt).
    cbn in He', Hb'. injection He' as <-. injection Hb' as <-.
    exists b, e. auto. }
  cbn [stop start option_map slice2] in H.
  destruct (el =? len)%Z eqn:Eend; injection H as <-.
  - apply Z.eqb_eq in Eend. subst el. split.
    + intros s Hs. apply in_app_or in Hs. destruct Hs as [Hs | [<- | []]].
      * destruct (Hfront' s Hs) as (b & e & -> & Hb & He).
        exists b, e. split; [reflexivity|lia].
      * exists bl, (len - 1)%Z. split; [reflexivity|lia].
    + intro i. rewrite Hcov'. unfold covered, within. split.
      * intros (s & Hs & b & e & Hb & He & Hi).
        apply in_app_or in Hs. destruct Hs as [Hs | [<- | []]].
        -- destruct (Hfront' s Hs) as (b' & e' & -> & Hb' & He').
           cbn in Hb, He. injection Hb as <-. injection He as <-.
           split; [|lia].
           exists (slice2 b' e'). split; [apply in_or_app; left; exact Hs|].
           exists b', e'. auto.
        -- cbn in Hb, He. injection Hb as <-. injection He as <-.
           split; [|lia].
           exists (slice2 bl len).
           split; [apply in_or_app; right; left; reflexivity|].
           exists bl, len. split; [reflexivity|]. split; [reflexivity|lia].
      * intros [(s & Hs & b & e & Hb & He & Hi) Hnl].
        apply in_app_or in Hs. destruct Hs as [Hs | [<- | []]].
        -- exists s. split; [apply in_or_app; left; exact Hs|].
           exists b, e. auto.
        -- cbn in Hb, He. injection Hb as <-. injection He as <-.
           exists (slice2 bl (len - 1)%Z).
           split; [apply in_or_app; right; left; reflexivity|].
           exists bl, (len - 1)%Z.
           split; [reflexivity|]. split; [reflexivity|lia].
  - apply Z.eqb_neq in Eend. split.
    + intros s Hs. apply in_app_or in Hs. destruct Hs as [Hs | [<- | []]].
      * destruct (Hfront' s Hs) as (b & e & -> & Hb & He).
        exists b, e. split; [reflexivity|lia].
      * exists bl, el. split; [reflexivity|lia].
    + intro i. rewrite Hcov'. unfold covered, within. split.
      * intros (s & Hs & b & e & Hb & He & Hi).
        split; [exists s; split; [exact Hs|]; exists b, e; auto|].
        apply in_app_or in Hs. destruct Hs as [Hs | [<- | []]].
        -- destruct (Hfront' s Hs) as (b' & e' & -> & Hb' & He').
           cbn in Hb, He. injection Hb as <-. injection He as <-. lia.
        -- cbn in Hb, He. injection Hb as <-. injection He as <-. lia.
      * intros [Hc _]. exact Hc.
Qed.

(** X3 on a gear that stays down during the three samples of a
    recording. *)
Lemma gear_extended_leaves_last_sample_witness :
  (raw Examples.gear_down_throughout <> [] ->
   forall s, In s [slice2 0%Z 2%Z] ->
     exists b e, s = slice2 b e /\ (0 <= b <= e)%Z
                 /\ (e < Z.of_nat (length (raw Examples.gear_down_throughout)))%Z)
  /\ (forall i, covered i [slice2 0%Z 2%Z]
                <-> (exists v, reads (raw Examples.gear_down_throughout) i v
                               /\ v <> 0%Z)
                    /\ i <> (Z.of_nat (length (raw Examples.gear_down_throughout))
                             - 1)%Z)
  /\ (raw Examples.gear_down_throughout = []
      -> [slice2 0%Z 2%Z] = [slice2 0%Z (-1)%Z]).
Proof.
  apply (gear_extended_leaves_last_sample Examples.gear_down_throughout
           [slice2 0%Z 2%Z]).
  reflexivity.
Defined.

(** ** Loops that create one phase per element *)

Lemma mapM_Forall2 {A B : Type} (f : A -> result B) (P : A -> B -> Prop)
      (l : list A) :
  (forall a, In a l -> exists b, f a = Return b /\ P a b) ->
  exists out, mapM f l = Return out /\ Forall2 P l out.
Proof.
  induction l as [|x l IH]; intro H.
  - exists []. split; [reflexivity|constructor].
  - destruct (H x (or_introl eq_refl)) as (b & Hb & HP).
    destruct IH as (out & Hout & Hall).
    { intros a Ha. apply H. right. exact Ha. }
    exists (b :: out). simpl. rewrite Hb, Hout. split; [reflexivity|].
    constructor; assumption.
Qed.

Lemma Forall2_In_r {A B : Type} (P : A -> B -> Prop) (l : list A)
      (out : list B) (b : B) :
  Forall2 P l out -> In b out -> exists a, In a l /\ P a b.
Proof.
  induction 1 as [|x y l out HP _ IH]; intro Hin; [destruct Hin|].
  destruct Hin as [<- | Hin].
  - exists x. split; [left; reflexivity|exact HP].
  - destruct (IH Hin) as (a & Ha & HPa).
    exists a. split; [right; exact Ha|exact HPa].
Qed.

Lemma getitem_Z_reads {A : Type} (a : masked_array A) (i : Z) (v : A) :
  reads a i v -> getitem_Z a i = Return (Some v).
Proof.
  intros [Hi Hv]. unfold getitem_Z.
  destruct (i <? 0)%Z eqn:E; [apply Z.ltb_lt in E; lia|].
  rewrite E. unfold getitem. rewrite Hv. reflexivity.
Qed.

(** ** Fast *)

Section FastProperties.

Variable AIRSPEED_THRESHOLD : Q.

Lemma keeps_end_valid (array : masked_array Q) (pos : Z) (limit v : Q) :
  reads array pos v -> AIRSPEED_THRESHOLD <= v ->
  exists keep,
    Fast.keeps_end AIRSPEED_THRESHOLD array pos limit = Return keep
    /\ (keep = true <-> v <= AIRSPEED_THRESHOLD + limit).
Proof.
  intros Hreads Hv. unfold Fast.keeps_end.
  rewrite (getitem_Z_reads _ _ _ Hreads). cbn [bind].
  eexists. split; [reflexivity|].
  rewrite negb_true_iff, Qltb_ge, Qabs_pos by lra.
  split; intro; lra.
Qed.

(** X4.  On an empty airspeed array Fast raises [IndexError]; on any
    other it does not fail.  It then creates one phase for every run of
    valid airspeed samples at or above the threshold, in order; an end of
    the run is the end of the phase when the airspeed at that end of the
    run is within 20 kt (start) or 30 kt (stop) of the threshold, and is
    left unset otherwise. *)
Theorem fast_one_phase_per_run (airspeed : parameter) :
  let runs :=
    clump_unmasked (masked_less (array airspeed) AIRSPEED_THRESHOLD) in
  (array airspeed = []
   -> Fast.derive AIRSPEED_THRESHOLD airspeed = Raise IndexError)
  /\ (array airspeed <> [] ->
  exists phases,
    Fast.derive AIRSPEED_THRESHOLD airspeed = Return phases
    /\ Forall2
         (fun run phase =>
            exists b e first last,
              run = slice2 b e
              /\ reads (array airspeed) b first
              /\ reads (array airspeed) (e - 1) last
              /\ AIRSPEED_THRESHOLD <= first /\ AIRSPEED_THRESHOLD <= last
              /\ start phase
                 = (if Qleb first (AIRSPEED_THRESHOLD + 20)
                    then Some b else None)
              /\ stop phase
                 = (if Qleb last (AIRSPEED_THRESHOLD + 30)
                    then Some e else None))
         runs phases).
Proof.
  intro runs. split.
  { intro Hempty. unfold Fast.derive. rewrite Hempty. reflexivity. }
  intro Hne. unfold Fast.derive. fold runs.
  apply mapM_Forall2. intros run Hrun.
  assert (Hin := Hrun).
  apply clump_unmasked_bounds in Hin.
  destruct Hin as (b & e & -> & Hb & He & Hlt).
  assert (Hbe : (b < e)%Z).
  { apply Hlt. unfold masked_less, masked_where.
    destruct (array airspeed); [congruence|discriminate]. }
  clear Hlt.
  assert (Hends : forall i, (b <= i < e)%Z ->
            exists v, reads (array airspeed) i v /\ AIRSPEED_THRESHOLD <= v).
  { intros i Hi.
    assert (Hc : covered i runs).
    { exists (slice2 b e). split; [exact Hrun|].
      exists b, e. split; [reflexivity|]. split; [reflexivity|exact Hi]. }
    apply clump_unmasked_covered in Hc. destruct Hc as (v & Hv).
    apply masked_where_reads in Hv. destruct Hv as [Hv Hge].
    exists v. split; [exact Hv|]. apply Qltb_ge. exact Hge. }
  destruct (Hends b) as (first & Hfirst & Hfirst_ge); [lia|].
  destruct (Hends (e - 1)%Z) as (last & Hlast & Hlast_ge); [lia|].
  destruct (keeps_end_valid (array airspeed) b 20 first Hfirst Hfirst_ge)
    as (keep_start & Hks & Hks_iff).
  destruct (keeps_end_valid (array airspeed) (e - 1) 30 last Hlast Hlast_ge)
    as (keep_stop & Hke & Hke_iff).
  unfold Fast.fast_phase. cbn [start stop slice2].
  rewrite Hks. cbn [bind]. rewrite Hke. cbn [bind].
  eexists. split; [reflexivity|].
  exists b, e, first, last. cbn [start stop].
  repeat (split; [solve [auto]|]).
  split.
  - destruct keep_start.
    + assert (H : Qleb first (AIRSPEED_THRESHOLD + 20) = true)
        by (apply Qleb_le; apply Hks_iff; reflexivity).
      rewrite H. reflexivity.
    + destruct (Qleb first (AIRSPEED_THRESHOLD + 20)) eqn:H; [|reflexivity].
      apply Qleb_le in H. apply Hks_iff in H. discriminate.
  - destruct keep_stop.
    + assert (H : Qleb last (AIRSPEED_THRESHOLD + 30) = true)
        by (apply Qleb_le; apply Hke_iff; reflexivity).
      rewrite H. reflexivity.
    + destruct (Qleb last (AIRSPEED_THRESHOLD + 30)) eqn:H; [|reflexivity].
      apply Qleb_le in H. apply Hke_iff in H. discriminate.
Qed.

End FastProperties.

(** X4 on an airspeed that rises through 80 kt, is masked for a sample
    and falls back from 130 kt: the first run stops at 120 kt and the
    second starts at 130 kt, too far from the threshold for these ends
    to be kept. *)
Lemma fast_one_phase_per_run_witness :
  Fast.derive 80 (mkParameter [] 1) = Raise IndexError
  /\ exists phases,
      Fast.derive 80 Flights.airspeed = Return phases
      /\ Forall2
           (fun run phase =>
              exists b e first last,
                run = slice2 b e
                /\ reads (array Flights.airspeed) b first
                /\ reads (array Flights.airspeed) (e - 1) last
                /\ 80 <= first /\ 80 <= last
                /\ start phase
                   = (if Qleb first (80 + 20) then Some b else None)
                /\ stop phase
                   = (if Qleb last (80 + 30) then Some e else None))
           [slice2 2%Z 4%Z; slice2 5%Z 7%Z] phases.
Proof.
  destruct (fast_one_phase_per_run 80 Flights.airspeed) as [_ Hrun].
  destruct (fast_one_phase_per_run 80 (mkParameter [] 1)) as [Hempty _].
  split; [apply Hempty; reflexivity|].
  apply Hrun. discriminate.
Defined.

(** ** Climb and Descent *)

Lemma Forall2_map_r {A B : Type} (P : A -> B -> Prop) (f : A -> B)
      (l : list A) :
  (forall a, In a l -> P a (f a)) -> Forall2 P l (map f l).
Proof.
  induction l as [|x l IH]; intro H; simpl; constructor.
  - apply H. left. reflexivity.
  - apply IH. intros a Ha. apply H. right. exact Ha.
Qed.

Lemma closest_toc_fold (eot : Q) (toc_list : list Q) :
  forall closest,
    (forall c0, closest = Some c0 -> eot < c0) ->
    match fold_left (Climb.closer eot) toc_list closest with
    | None => closest = None /\ forall t, In t toc_list -> t <= eot
    | Some c =>
        (closest = Some c \/ In c toc_list)
        /\ eot < c
        /\ (forall t, In t toc_list -> eot < t -> c <= t)
        /\ (forall c0, closest = Some c0 -> c <= c0)
    end.
Proof.
  induction toc_list as [|t rest IH]; intros closest Hclosest.
  - simpl. destruct closest as [c|].
    + split; [left; reflexivity|]. split; [apply Hclosest; reflexivity|].
      split; [intros t []|]. intros c0 H. injection H as <-. lra.
    + split; [reflexivity|]. intros t [].
  - simpl. unfold Climb.closer at 2.
    destruct (Qltb eot t) eqn:Eeot; cbn [andb].
    + apply Qltb_lt in Eeot.
      destruct closest as [c0|]; cbn [py2_lt orb].
      * rewrite orb_false_r. destruct (Qltb t c0) eqn:Et.
        -- apply Qltb_lt in Et.
           specialize (IH (Some t)).
           destruct (fold_left (Climb.closer eot) rest (Some t)) as [c|].
           ++ destruct IH as (Hc & Hlt & Hmin & Hle).
              { intros c1 H. injection H as <-. exact Eeot. }
              specialize (Hle t eq_refl).
              split; [right; destruct Hc as [Hc|Hc];
                      [injection Hc as <-; left; reflexivity|right; exact Hc]|].
              split; [exact Hlt|]. split.
              ** intros t' [<- | Hin] Ht'; [exact Hle|apply Hmin; assumption].
              ** intros c1 H. injection H as <-. lra.
           ++ destruct IH as [H _].
              { intros c1 H. injection H as <-. exact Eeot. }
              discriminate.
        -- apply Qltb_ge in Et.
           specialize (IH (Some c0) Hclosest).
           destruct (fold_left (Climb.closer eot) rest (Some c0)) as [c|].
           ++ destruct IH as (Hc & Hlt & Hmin & Hle).
              specialize (Hle c0 eq_refl).
              split; [destruct Hc as [Hc|Hc]; [left; exact Hc|right; right; exact Hc]|].
              split; [exact Hlt|]. split.
              ** intros t' [<- | Hin] Ht'; [lra|apply Hmin; assumption].
              ** intros c1 H. injection H as <-. exact Hle.
           ++ destruct IH as [H _]. discriminate.
      * specialize (IH (Some t)).
        destruct (fold_left (Climb.closer eot) rest (Some t)) as [c|].
        -- destruct IH as (Hc & Hlt & Hmin & Hle).
           { intros c1 H. injection H as <-. exact Eeot. }
           specialize (Hle t eq_refl).
           split; [right; destruct Hc as [Hc|Hc];
                   [injection Hc as <-; left; reflexivity|right; exact Hc]|].
           split; [exact Hlt|]. split.
           ++ intros t' [<- | Hin] Ht'; [exact Hle|apply Hmin; assumption].
           ++ intros c1 H. discriminate.
        -- destruct IH as [H _].
           { intros c1 H. injection H as <-. exact Eeot. }
           discriminate.
    + apply Qltb_ge in Eeot.
      specialize (IH closest Hclosest).
      destruct (fold_left (Climb.closer eot) rest closest) as [c|].
      * destruct IH as (Hc & Hlt & Hmin & Hle).
        split; [destruct Hc as [Hc|Hc]; [left; exact Hc|right; right; exact Hc]|].
        split; [exact Hlt|]. split; [|exact Hle].
        intros t' [<- | Hin] Ht'; [lra|apply Hmin; assumption].
      * destruct IH as [Hnone Hall]. split; [exact Hnone|].
        intros t' [<- | Hin]; [exact Eeot|apply Hall; exact Hin].
Qed.

(** X5.  Climb creates one phase for every climb start, in order, from
    the climb start to the lowest top of climb strictly above it; the stop
    is unset exactly when no top of climb lies above the climb start. *)
Theorem climb_to_next_top_of_climb (toc eot : list Q) :
  Forall2
    (fun this_eot phase =>
       start phase = Some this_eot
       /\ match stop phase with
          | Some c =>
              In c toc /\ this_eot < c
              /\ forall t, In t toc -> this_eot < t -> c <= t
          | None => forall t, In t toc -> t <= this_eot
          end)
    eot (Climb.derive toc eot).
Proof.
  unfold Climb.derive. apply Forall2_map_r. intros this_eot _.
  cbn [start stop]. split; [reflexivity|].
  assert (H := closest_toc_fold this_eot toc None).
  unfold Climb.closest_toc.
  destruct (fold_left (Climb.closer this_eot) toc None) as [c|].
  - destruct H as (Hc & Hlt & Hmin & _); [discriminate|].
    destruct Hc as [Hc|Hc]; [discriminate|]. auto.
  - destruct H as [_ Hall]; [discriminate|]. exact Hall.
Qed.

Lemma closest_tod_fold (bod : Q) (tod_list : list Q) :
  forall closest,
    (forall c0, closest = Some c0 -> c0 < bod) ->
    match fold_left (Descent.closer bod) tod_list closest with
    | None => closest = None /\ forall t, In t tod_list -> bod <= t
    | Some c =>
        (closest = Some c \/ In c tod_list)
        /\ c < bod
        /\ (forall t, In t tod_list -> t < bod -> t <= c)
        /\ (forall c0, closest = Some c0 -> c0 <= c)
    end.
Proof.
  induction tod_list as [|t rest IH]; intros closest Hclosest.
  - simpl. destruct closest as [c|].
    + split; [left; reflexivity|]. split; [apply Hclosest; reflexivity|].
      split; [intros t []|]. intros c0 H. injection H as <-. lra.
    + split; [reflexivity|]. intros t [].
  - simpl. unfold Descent.closer at 2.
    destruct (Qltb t bod) eqn:Ebod; cbn [andb].
    + apply Qltb_lt in Ebod.
      assert (Ht : forall c1, Some t = Some c1 -> c1 < bod)
        by (intros c1 H; injection H as <-; exact Ebod).
      destruct closest as [c0|]; cbn [py2_lt].
      * destruct (Qltb c0 t) eqn:Et.
        -- apply Qltb_lt in Et.
           specialize (IH (Some t) Ht).
           destruct (fold_left (Descent.closer bod) rest (Some t)) as [c|].
           ++ destruct IH as (Hc & Hlt & Hmax & Hle).
              specialize (Hle t eq_refl).
              split; [right; destruct Hc as [Hc|Hc];
                      [injection Hc as <-; left; reflexivity|right; exact Hc]|].
              split; [exact Hlt|]. split.
              ** intros t' [<- | Hin] Ht'; [exact Hle|apply Hmax; assumption].
              ** intros c1 H. injection H as <-. lra.
           ++ destruct IH as [H _]. discriminate.
        -- apply Qltb_ge in Et.
           specialize (IH (Some c0) Hclosest).
           destruct (fold_left (Descent.closer bod) rest (Some c0)) as [c|].
           ++ destruct IH as (Hc & Hlt & Hmax & Hle).
              specialize (Hle c0 eq_refl).
              split; [destruct Hc as [Hc|Hc]; [left; exact Hc|right; right; exact Hc]|].
              split; [exact Hlt|]. split.
              ** intros t' [<- | Hin] Ht'; [lra|apply Hmax; assumption].
              ** intros c1 H. injection H as <-. exact Hle.
           ++ destruct IH as [H _]. discriminate.
      * specialize (IH (Some t) Ht).
        destruct (fold_left (Descent.closer bod) rest (Some t)) as [c|].
        -- destruct IH as (Hc & Hlt & Hmax & Hle).
           specialize (Hle t eq_refl).
           split; [right; destruct Hc as [Hc|Hc];
                   [injection Hc as <-; left; reflexivity|right; exact Hc]|].
           split; [exact Hlt|]. split.
           ++ intros t' [<- | Hin] Ht'; [exact Hle|apply Hmax; assumption].
           ++ intros c1 H. discriminate.
        -- destruct IH as [H _]. discriminate.
    + apply Qltb_ge in Ebod.
      specialize (IH closest Hclosest).
      destruct (fold_left (Descent.closer bod) rest closest) as [c|].
      * destruct IH as (Hc & Hlt & Hmax & Hle).
        split; [destruct Hc as [Hc|Hc]; [left; exact Hc|right; right; exact Hc]|].
        split; [exact Hlt|]. split; [|exact Hle].
        intros t' [<- | Hin] Ht'; [lra|apply Hmax; assumption].
      * destruct IH as [Hnone Hall]. split; [exact Hnone|].
        intros t' [<- | Hin]; [exact Ebod|apply Hall; exact Hin].
Qed.

(** X6.  Descent creates one phase for every bottom of descent, in order,
    from the highest top of descent strictly below it to the bottom of
    descent; the start is unset exactly when no top of descent lies
    below the bottom of descent. *)
Theorem descent_from_previous_top_of_descent (tod_set bod_set : list Q) :
  Forall2
    (fun bod phase =>
       stop phase = Some bod
       /\ match start phase with
          | Some c =>
              In c tod_set /\ c < bod
              /\ forall t, In t tod_set -> t < bod -> t <= c
          | None => forall t, In t tod_set -> bod <= t
          end)
    bod_set (Descent.derive tod_set bod_set).
Proof.
  unfold Descent.derive. apply Forall2_map_r. intros bod _.
  cbn [start stop]. split; [reflexivity|].
  assert (H := closest_tod_fold bod tod_set None).
  unfold Descent.closest_tod.
  destruct (fold_left (Descent.closer bod) tod_set None) as [c|].
  - destruct H as (Hc & Hlt & Hmax & _); [discriminate|].
    destruct Hc as [Hc|Hc]; [discriminate|]. auto.
  - destruct H as [_ Hall]; [discriminate|]. exact Hall.
Qed.

(** ** GoAround5MinRating *)

Lemma getitem_Z_last {A : Type} (front : list A) (x : A) :
  getitem_Z (front ++ [x]) (-1) = Return x.
Proof.
  unfold getitem_Z. cbn [Z.ltb Z.compare].
  rewrite length_app. cbn [length].
  destruct (-1 + Z.of_nat (length front + 1) <? 0)%Z eqn:E;
    [apply Z.ltb_lt in E; lia|].
  unfold getitem.
  replace (Z.to_nat (-1 + Z.of_nat (length front + 1))) with (length front)
    by lia.
  rewrite nth_error_app2 by lia. rewrite Nat.sub_diag. reflexivity.
Qed.

Lemma getitem_Z_empty {A : Type} (i : Z) : getitem_Z (@nil A) i = Raise IndexError.
Proof.
  unfold getitem_Z. cbn [length Z.of_nat].
  destruct (i <? 0)%Z eqn:E.
  - apply Z.ltb_lt in E.
    destruct (i + 0 <? 0)%Z eqn:E'; [reflexivity|].
    apply Z.ltb_ge in E'. lia.
  - rewrite E. unfold getitem. destruct (Z.to_nat i); reflexivity.
Qed.

Lemma mapM_total {A B : Type} (f : A -> result B) (l : list A) :
  (forall a, In a l -> exists b, f a = Return b) ->
  exists out, mapM f l = Return out.
Proof.
  intro H.
  destruct (mapM_Forall2 f (fun _ _ => True) l) as (out & Hout & _).
  - intros a Ha. destruct (H a Ha) as (b & Hb). eauto.
  - eauto.
Qed.

Lemma mapM_returns {A B : Type} (f : A -> result B) (l : list A)
      (out : list B) :
  mapM f l = Return out -> forall a, In a l -> exists b, f a = Return b.
Proof.
  revert out. induction l as [|x l IH]; intros out H a Ha; [destruct Ha|].
  simpl in H. destruct (f x) as [y|] eqn:Hy; [|discriminate].
  cbn [bind] in H. destruct (mapM f l) as [ys|]; [|discriminate].
  destruct Ha as [<- | Ha]; [eauto|]. exact (IH ys eq_refl a Ha).
Qed.

(** X7.  GoAround5MinRating returns its phases exactly when there is no
    go-around, or there is a touchdown and every go-around slice has a
    start; with go-arounds that have a start and no touchdown it raises
    [IndexError].  Every phase it returns starts at the start of a
    go-around, lasts more than nothing and at most 300 samples, and stops
    no later than the last touchdown. *)
Theorem go_around_rating_bounded (gas : list (slice Q)) (tdwn : list Q) :
  ((exists phases, GoAround5MinRating.derive gas tdwn = Return phases)
   <-> gas = []
       \/ (tdwn <> [] /\ forall ga, In ga gas -> start ga <> None))
  /\ (forall ga rest b,
         gas = ga :: rest -> start ga = Some b -> tdwn = [] ->
         GoAround5MinRating.derive gas tdwn = Raise IndexError)
  /\ (forall phases p,
         GoAround5MinRating.derive gas tdwn = Return phases ->
         In p phases ->
         exists ga b e front last_tdwn,
           In ga gas /\ start ga = Some b /\ tdwn = front ++ [last_tdwn]
           /\ start p = Some b /\ stop p = Some e
           /\ b < e /\ e <= b + 300 /\ e <= last_tdwn).
Proof.
  unfold GoAround5MinRating.derive. split; [|split].
  - split.
    + intros (phases & H).
      destruct (mapM (GoAround5MinRating.rating tdwn) gas) as [created|] eqn:E;
        [|discriminate].
      destruct gas as [|ga rest]; [left; reflexivity|]. right.
      assert (Hret := mapM_returns _ _ _ E).
      split.
      * intros ->. destruct (Hret ga (or_introl eq_refl)) as (c & Hc).
        unfold GoAround5MinRating.rating in Hc.
        destruct (start ga); [|discriminate].
        rewrite getitem_Z_empty in Hc. discriminate.
      * intros ga' Hga' Hnone. destruct (Hret ga' Hga') as (c & Hc).
        unfold GoAround5MinRating.rating in Hc. rewrite Hnone in Hc.
        discriminate.
    + intros [-> | [Htd Hstarts]]; [exists []; reflexivity|].
      destruct (exists_last Htd) as (front & last_tdwn & ->).
      destruct (mapM_total (GoAround5MinRating.rating (front ++ [last_tdwn]))
                           gas) as (created & ->).
      * intros ga Hga. unfold GoAround5MinRating.rating.
        destruct (start ga) as [b|] eqn:Hb; [|elim (Hstarts ga Hga Hb)].
        rewrite getitem_Z_last. cbn [bind]. eauto.
      * cbn [bind]. eauto.
  - intros ga rest b -> Hb ->. simpl.
    unfold GoAround5MinRating.rating at 1. rewrite Hb, getitem_Z_empty.
    reflexivity.
  - intros phases p H Hp.
    destruct (mapM (GoAround5MinRating.rating tdwn) gas) as [created|] eqn:E;
      [|discriminate].
    cbn [bind] in H. injection H as <-.
    apply in_concat in Hp. destruct Hp as (c & Hc & Hp).
    destruct (mapM_In _ _ _ E c Hc) as (ga & Hga & Hrating).
    unfold GoAround5MinRating.rating in Hrating.
    destruct (start ga) as [b|] eqn:Hb; [|discriminate].
    destruct tdwn as [|t tdwn'] eqn:Htd.
    { rewrite getitem_Z_empty in Hrating. discriminate. }
    destruct (exists_last (l := t :: tdwn')) as (front & last_tdwn & Hlast);
      [discriminate|].
    rewrite Hlast in *. rewrite getitem_Z_last in Hrating.
    cbn [bind] in Hrating. injection Hrating as <-.
    destruct (Qltb b (py_min (b + 300) last_tdwn)) eqn:Elt; [|destruct Hp].
    destruct Hp as [<- | []].
    apply Qltb_lt in Elt.
    exists ga, b, (py_min (b + 300) last_tdwn), front, last_tdwn.
    repeat split; auto.
    + apply py_min_le_l.
    + apply py_min_le_r.
Qed.

(** X7 on a go-around 100 samples before the last touchdown. *)
Lemma go_around_rating_witness :
  exists ga b e front last_tdwn,
    In ga [slice2 1000 1400] /\ start ga = Some b
    /\ [500; 1100] = front ++ [last_tdwn]
    /\ start (slice2 1000 1100) = Some b /\ stop (slice2 1000 1100) = Some e
    /\ b < e /\ e <= b + 300 /\ e <= last_tdwn.
Proof.
  destruct (go_around_rating_bounded [slice2 1000 1400] [500; 1100])
    as (_ & _ & Hphases).
  apply (Hphases [slice2 1000 1100] (slice2 1000 1100)).
  - vm_compute. reflexivity.
  - left. reflexivity.
Defined.

(** ** InitialClimb *)

Section InitialClimbProperties.

Variable get_ordered_by_index : list Q -> list Q.

Lemma first_after_sorted (begin : option Q) (ordered : list Q) :
  StronglySorted Qle ordered ->
  match InitialClimb.first_after begin ordered with
  | [] => forall c, In c ordered -> py2_lt begin (Some c) = false
  | [p] =>
      start p = begin
      /\ exists e, stop p = Some e /\ In e ordered
                   /\ py2_lt begin (Some e) = true
                   /\ forall c, In c ordered ->
                                py2_lt begin (Some c) = true -> e <= c
  | _ => False
  end.
Proof.
  induction 1 as [|c0 rest Hsorted IH Hall]; simpl.
  - intros c [].
  - destruct (py2_lt begin (Some c0)) eqn:E.
    + split; [reflexivity|]. exists c0.
      split; [reflexivity|]. split; [left; reflexivity|].
      split; [exact E|].
      rewrite Forall_forall in Hall.
      intros c [<- | Hc] _; [lra|apply Hall; exact Hc].
    + destruct (InitialClimb.first_after begin rest) as [|p [|q more]].
      * intros c [<- | Hc]; [exact E|apply IH; exact Hc].
      * destruct IH as (Hstart & e & He & Hin & Hlt & Hmin).
        split; [exact Hstart|]. exists e.
        split; [exact He|]. split; [right; exact Hin|].
        split; [exact Hlt|].
        intros c [<- | Hc] Hc'; [congruence|apply Hmin; assumption].
      * exact IH.
Qed.

(** X8.  With the climb starts ordered by index, InitialClimb creates at
    most one phase for a takeoff: it runs from the stop edge of the
    takeoff to the first climb start strictly after it, and every phase
    it creates is of that kind. *)
Theorem initial_climb_to_first_climb_start
        (takeoffs : list (option Q)) (climb_starts : list Q) :
  StronglySorted Qle (get_ordered_by_index climb_starts) ->
  (forall c, In c (get_ordered_by_index climb_starts) <-> In c climb_starts) ->
  forall p,
    In p (InitialClimb.derive get_ordered_by_index takeoffs climb_starts) ->
    exists e,
      In (start p) takeoffs /\ stop p = Some e /\ In e climb_starts
      /\ py2_lt (start p) (Some e) = true
      /\ (forall b, start p = Some b -> b < e)
      /\ forall c, In c climb_starts ->
                   py2_lt (start p) (Some c) = true -> e <= c.
Proof.
  intros Hsorted Hsame p Hp. unfold InitialClimb.derive in Hp.
  apply in_flat_map in Hp. destruct Hp as (begin & Hbegin & Hp).
  assert (H := first_after_sorted begin _ Hsorted).
  destruct (InitialClimb.first_after begin
              (get_ordered_by_index climb_starts)) as [|q [|r more]];
    [destruct Hp| |destruct H].
  destruct Hp as [<- | []].
  destruct H as (Hstart & e & He & Hin & Hlt & Hmin).
  exists e. rewrite Hstart.
  split; [exact Hbegin|]. split; [exact He|].
  split; [apply Hsame; exact Hin|]. split; [exact Hlt|]. split.
  - intros b ->. cbn in Hlt. apply Qltb_lt. exact Hlt.
  - intros c Hc. apply Hmin. apply Hsame. exact Hc.
Qed.

End InitialClimbProperties.

(** X8 on a takeoff that ends at index 120, with climb starts at 400 and
    at 150, given in that order. *)
Lemma initial_climb_witness :
  exists e,
    In (start (Slice (Some 120) (Some 150) None)) [Some 120]
    /\ stop (Slice (Some 120) (Some 150) None) = Some e
    /\ In e [400; 150]
    /\ py2_lt (start (Slice (Some 120) (Some 150) None)) (Some e) = true
    /\ (forall b, start (Slice (Some 120) (Some 150) None) = Some b -> b < e)
    /\ forall c, In c [400; 150] ->
                 py2_lt (start (Slice (Some 120) (Some 150) None)) (Some c)
                 = true -> e <= c.
Proof.
  apply (initial_climb_to_first_climb_start KTI.get_ordered_by_index
           [Some 120] [400; 150]).
  - repeat constructor; unfold Qle; simpl; lia.
  - intro c. simpl. tauto.
  - left. reflexivity.
Defined.

(** ** Takeoff and Landing *)

Section RunwayProperties.

Variable index_at_value : index_at_value_t.
Variables HEADING_TURN_ONTO_RUNWAY INITIAL_CLIMB_THRESHOLD : Q.
Variables LANDING_THRESHOLD_HEIGHT HEADING_TURN_OFF_RUNWAY : Q.

Lemma truthy_nonzero (q : Q) : truthy (Some q) = true <-> ~ q == 0.
Proof.
  cbn [truthy]. rewrite negb_true_iff. split.
  - intros H Hq. apply Qeq_bool_iff in Hq. congruence.
  - intro H. destruct (Qeq_bool q 0) eqn:E; [|reflexivity].
    apply Qeq_bool_iff in E. contradiction.
Qed.

(** X9.  Takeoff creates at most one phase for a fast section.  Every
    phase it returns has both ends set and neither is index 0; its stop
    is where the altitude was found to pass the initial-climb threshold
    after the start of a fast section, and its start is where the heading
    was found to turn onto the runway or, when that is not found, the
    five-minute boundary. *)
Theorem takeoff_phases_never_at_zero
        (head alt_aal : parameter) (fast : list (slice Z))
        (phases : list (slice Q)) :
  Takeoff.derive index_at_value HEADING_TURN_ONTO_RUNWAY
                 INITIAL_CLIMB_THRESHOLD head alt_aal fast = Return phases ->
  (length phases <= length fast)%nat
  /\ forall p, In p phases ->
       exists speedy takeoff_run b e,
         In speedy fast /\ start speedy = Some takeoff_run
         /\ p = slice2 b e /\ ~ b == 0 /\ ~ e == 0
         /\ Takeoff.search_end index_at_value INITIAL_CLIMB_THRESHOLD alt_aal
                               takeoff_run = Return (Some e)
         /\ (Takeoff.search_begin index_at_value HEADING_TURN_ONTO_RUNWAY
                                  head takeoff_run = Return (Some b)
             \/ (Takeoff.search_begin index_at_value HEADING_TURN_ONTO_RUNWAY
                                      head takeoff_run = Return None
                 /\ b = Takeoff.first_index head takeoff_run)).
Proof.
  revert phases. induction fast as [|speedy rest IH]; intros phases H.
  - injection H as <-. split; [simpl; lia|]. intros p [].
  - cbn [Takeoff.derive] in H.
    destruct (start speedy) as [takeoff_run|] eqn:Hrun.
    2:{ injection H as <-. split; [simpl; lia|]. intros p []. }
    destruct (Takeoff.search_begin index_at_value HEADING_TURN_ONTO_RUNWAY
                                   head takeoff_run) as [found|] eqn:Hbegin;
      [|discriminate].
    cbn [bind] in H.
    destruct (Takeoff.search_end index_at_value INITIAL_CLIMB_THRESHOLD
                                 alt_aal takeoff_run) as [takeoff_end|]
      eqn:Hend; [|discriminate].
    cbn [bind] in H.
    destruct (Takeoff.derive index_at_value HEADING_TURN_ONTO_RUNWAY
                             INITIAL_CLIMB_THRESHOLD head alt_aal rest)
      as [more|]; [|discriminate].
    cbn [bind] in H.
    destruct (IH more eq_refl) as [Hlen Hmore].
    assert (Hrest : forall p, In p more ->
              exists speedy' takeoff_run' b e,
                In speedy' (speedy :: rest) /\ start speedy' = Some takeoff_run'
                /\ p = slice2 b e /\ ~ b == 0 /\ ~ e == 0
                /\ Takeoff.search_end index_at_value INITIAL_CLIMB_THRESHOLD
                     alt_aal takeoff_run' = Return (Some e)
                /\ (Takeoff.search_begin index_at_value
                      HEADING_TURN_ONTO_RUNWAY head takeoff_run'
                    = Return (Some b)
                    \/ (Takeoff.search_begin index_at_value
                          HEADING_TURN_ONTO_RUNWAY head takeoff_run'
                        = Return None
                        /\ b = Takeoff.first_index head takeoff_run'))).
    { intros p Hp.
      destruct (Hmore p Hp) as (s & r & b & e & Hs & Hrest).
      exists s, r, b, e. split; [right; exact Hs|exact Hrest]. }
    set (takeoff_begin := match found with
                          | Some i => i
                          | None => Takeoff.first_index head takeoff_run
                          end) in H.
    destruct (truthy (Some takeoff_begin) && truthy takeoff_end) eqn:Etruth.
    + apply andb_true_iff in Etruth. destruct Etruth as [Hb He].
      destruct takeoff_end as [e|]; [|discriminate].
      injection H as <-. split; [simpl; lia|].
      intros p [<- | Hp]; [|apply Hrest; exact Hp].
      exists speedy, takeoff_run, takeoff_begin, e.
      split; [left; reflexivity|]. split; [exact Hrun|].
      split; [reflexivity|].
      split; [apply truthy_nonzero; exact Hb|].
      split; [apply truthy_nonzero; exact He|].
      split; [exact Hend|].
      subst takeoff_begin. destruct found as [i|]; auto.
    + injection H as <-. split; [simpl; lia|]. exact Hrest.
Qed.

(** X10.  A fast section without start ends Takeoff: the sections that
    follow it create nothing, whether they have a start or not. *)
Theorem takeoff_ends_at_section_without_start
        (head alt_aal : parameter) (before after : list (slice Z))
        (speedy : slice Z) :
  start speedy = None ->
  Takeoff.derive index_at_value HEADING_TURN_ONTO_RUNWAY
                 INITIAL_CLIMB_THRESHOLD head alt_aal
                 (before ++ speedy :: after)
  = Takeoff.derive index_at_value HEADING_TURN_ONTO_RUNWAY
                   INITIAL_CLIMB_THRESHOLD head alt_aal before.
Proof.
  intro Hstart. induction before as [|s before IH].
  - cbn [app Takeoff.derive]. rewrite Hstart. reflexivity.
  - cbn [app Takeoff.derive]. rewrite IH. reflexivity.
Qed.

(** X11.  A fast section without stop, or that stops at or past the end
    of the altitude array, ends Landing: it and the sections that follow
    it create nothing. *)
Theorem landing_ends_at_section_that_runs_out
        (head alt_aal : parameter) (before after : list (slice Z))
        (speedy : slice Z) :
  Landing.runs_out alt_aal speedy = true ->
  Landing.derive index_at_value LANDING_THRESHOLD_HEIGHT
                 HEADING_TURN_OFF_RUNWAY head alt_aal
                 (before ++ speedy :: after)
  = Landing.derive index_at_value LANDING_THRESHOLD_HEIGHT
                   HEADING_TURN_OFF_RUNWAY head alt_aal before.
Proof.
  intro Hout. induction before as [|s before IH].
  - cbn [app Landing.derive]. rewrite Hout. reflexivity.
  - cbn [app Landing.derive]. rewrite IH. reflexivity.
Qed.

(** X12.  When every fast section stops within the altitude array,
    Landing creates one phase per section, in order.  The stop of the
    phase is always set: it is where the heading was found to turn off
    the runway or, when that is not found, the last index of the heading
    array.  The start of the phase is what the search for the landing
    threshold height answers, and is unset when it finds nothing. *)
Theorem landing_one_phase_per_section
        (head alt_aal : parameter) (fast : list (slice Z))
        (phases : list (slice Q)) :
  Landing.derive index_at_value LANDING_THRESHOLD_HEIGHT
                 HEADING_TURN_OFF_RUNWAY head alt_aal fast = Return phases ->
  (forall speedy, In speedy fast -> Landing.runs_out alt_aal speedy = false) ->
  Forall2
    (fun speedy phase =>
       exists landing_run datum found,
         stop speedy = Some landing_run
         /\ getitem_Z (array head) landing_run = Return datum
         /\ index_at_value (array alt_aal) LANDING_THRESHOLD_HEIGHT
              (Slice (Some (ZtoQ landing_run - 300 * frequency alt_aal))
                     (Some (ZtoQ landing_run)) None) exact
            = Return (start phase)
         /\ index_at_value (ma_abs (ma_sub_scalar (array head) datum))
              HEADING_TURN_OFF_RUNWAY
              (Slice (Some (ZtoQ landing_run))
                     (Some (ZtoQ landing_run + 480 * frequency head)) None)
              exact
            = Return found
         /\ stop phase
            = Some (match found with
                    | Some i => i
                    | None => ZtoQ (Z.of_nat (length (array head)) - 1)
                    end))
    fast phases.
Proof.
  revert phases. induction fast as [|speedy rest IH]; intros phases H Hin.
  - injection H as <-. constructor.
  - cbn [Landing.derive] in H.
    rewrite (Hin speedy (or_introl eq_refl)) in H.
    destruct (stop speedy) as [landing_run|] eqn:Hrun.
    2:{ specialize (Hin speedy (or_introl eq_refl)).
        unfold Landing.runs_out in Hin. rewrite Hrun in Hin. discriminate. }
    destruct (getitem_Z (array head) landing_run) as [datum|] eqn:Hdatum;
      [|discriminate].
    cbn [bind] in H.
    destruct (index_at_value (array alt_aal) LANDING_THRESHOLD_HEIGHT
                (Slice (Some (ZtoQ landing_run - 300 * frequency alt_aal))
                       (Some (ZtoQ landing_run)) None) exact)
      as [landing_begin|] eqn:Hbegin; [|discriminate].
    cbn [bind] in H.
    destruct (index_at_value (ma_abs (ma_sub_scalar (array head) datum))
                HEADING_TURN_OFF_RUNWAY
                (Slice (Some (ZtoQ landing_run))
                       (Some (ZtoQ landing_run + 480 * frequency head)) None)
                exact) as [found|] eqn:Hfound; [|discriminate].
    cbn [bind] in H.
    destruct (Landing.derive index_at_value LANDING_THRESHOLD_HEIGHT
                             HEADING_TURN_OFF_RUNWAY head alt_aal rest)
      as [more|]; [|discriminate].
    cbn [bind] in H. injection H as <-.
    constructor.
    + exists landing_run, datum, found. cbn [start stop]. auto.
    + apply IH; [reflexivity|]. intros s Hs. apply Hin. right. exact Hs.
Qed.

End RunwayProperties.

(** X9 on a flight that lines up at the fifth sample, X10 on the same
    flight preceded by a fast section without start, X11 and X12 on a
    landing. *)
Lemma takeoff_phases_witness :
  (length [slice2 (29 # 6) (47 # 2)] <= length Examples.fast)%nat
  /\ forall p, In p [slice2 (29 # 6) (47 # 2)] ->
       exists speedy takeoff_run b e,
         In speedy Examples.fast /\ start speedy = Some takeoff_run
         /\ p = slice2 b e /\ ~ b == 0 /\ ~ e == 0
         /\ Takeoff.search_end SpecLibrary.index_at_value 35
              Examples.climb_out takeoff_run = Return (Some e)
         /\ (Takeoff.search_begin SpecLibrary.index_at_value 15
               Flights.lining_up takeoff_run = Return (Some b)
             \/ (Takeoff.search_begin SpecLibrary.index_at_value 15
                   Flights.lining_up takeoff_run = Return None
                 /\ b = Takeoff.first_index Flights.lining_up takeoff_run)).
Proof.
  apply (takeoff_phases_never_at_zero SpecLibrary.index_at_value 15 35
           Flights.lining_up Examples.climb_out Examples.fast).
  vm_compute. reflexivity.
Defined.

Lemma takeoff_ends_witness :
  Takeoff.derive SpecLibrary.index_at_value 15 35 Flights.lining_up
                 Examples.climb_out
                 ([] ++ Slice None (Some 8%Z) None :: Examples.fast)
  = Takeoff.derive SpecLibrary.index_at_value 15 35 Flights.lining_up
                   Examples.climb_out [].
Proof.
  apply (takeoff_ends_at_section_without_start SpecLibrary.index_at_value
           15 35 Flights.lining_up Examples.climb_out [] Examples.fast
           (Slice None (Some 8%Z) None)).
  reflexivity.
Defined.

Lemma landing_ends_witness :
  Landing.derive SpecLibrary.index_at_value 50 45 Flights.turning_off
                 Flights.final_descent
                 (Flights.slowing ++ slice2 33%Z 40%Z :: Flights.slowing)
  = Landing.derive SpecLibrary.index_at_value 50 45 Flights.turning_off
                   Flights.final_descent Flights.slowing.
Proof.
  apply (landing_ends_at_section_that_runs_out SpecLibrary.index_at_value
           50 45 Flights.turning_off Flights.final_descent Flights.slowing
           Flights.slowing (slice2 33%Z 40%Z)).
  reflexivity.
Defined.

Lemma landing_one_phase_witness :
  Forall2
    (fun speedy phase =>
       exists landing_run datum found,
         stop speedy = Some landing_run
         /\ getitem_Z (array Flights.turning_off) landing_run = Return datum
         /\ SpecLibrary.index_at_value (array Flights.final_descent) 50
              (Slice (Some (ZtoQ landing_run
                            - 300 * frequency Flights.final_descent))
                     (Some (ZtoQ landing_run)) None) exact
            = Return (start phase)
         /\ SpecLibrary.index_at_value
              (ma_abs (ma_sub_scalar (array Flights.turning_off) datum)) 45
              (Slice (Some (ZtoQ landing_run))
                     (Some (ZtoQ landing_run
                            + 480 * frequency Flights.turning_off)) None)
              exact
            = Return found
         /\ stop phase
            = Some (match found with
                    | Some i => i
                    | None =>
                        ZtoQ (Z.of_nat (length (array Flights.turning_off))
                              - 1)
                    end))
    Flights.slowing [slice2 25 (143 # 4)].
Proof.
  apply (landing_one_phase_per_section SpecLibrary.index_at_value 50 45
           Flights.turning_off Flights.final_descent Flights.slowing
           [slice2 25 (143 # 4)]).
  - vm_compute. reflexivity.
  - intros speedy [<- | []]. reflexivity.
Defined.

(** ** Cruise *)

Lemma mapM_raises {A B : Type} (f : A -> result B) (l : list A) (e : exn) :
  (forall a, In a l -> f a = Raise e \/ exists b, f a = Return b) ->
  (exists a, In a l /\ f a = Raise e) ->
  mapM f l = Raise e.
Proof.
  induction l as [|x l IH]; intros Hall (a & Ha & Hraise); [destruct Ha|].
  simpl. destruct (Hall x (or_introl eq_refl)) as [Hx | (b & Hx)];
    rewrite Hx; [reflexivity|].
  cbn [bind]. rewrite IH; [reflexivity| |].
  - intros a' Ha'. apply Hall. right. exact Ha'.
  - destruct Ha as [<- | Ha]; [congruence|]. exists a. auto.
Qed.

Lemma mapM_length {A B : Type} (f : A -> result B) (l : list A)
      (out : list B) :
  mapM f l = Return out -> length out = length l.
Proof.
  revert out. induction l as [|x l IH]; intros out H; simpl in H.
  - injection H as <-. reflexivity.
  - destruct (f x); [|discriminate]. cbn [bind] in H.
    destruct (mapM f l) as [ys|]; [|discriminate].
    cbn [bind] in H. injection H as <-. simpl. rewrite (IH ys eq_refl).
    reflexivity.
Qed.

Section CruiseProperties.

Variable get_first get_last : list Q -> slice Q -> option Q.

Lemma cruise_raises_iff (tocs tods : list Q) (ccd : slice Q) :
  (Cruise.cruise get_first get_last tocs tods ccd = Raise TypeError
   <-> get_first tocs ccd = None /\ start ccd = None
       /\ get_last tods ccd = None /\ stop ccd = None)
  /\ (Cruise.cruise get_first get_last tocs tods ccd = Raise TypeError
      \/ exists p, Cruise.cruise get_first get_last tocs tods ccd = Return p).
Proof.
  unfold Cruise.cruise.
  destruct (get_first tocs ccd) as [toc|]; destruct (start ccd) as [b|];
    destruct (get_last tods ccd) as [tod|]; destruct (stop ccd) as [e|];
    cbn [py2_le];
    try (destruct (Qleb _ _));
    (split; [split; [intro H; discriminate H|intros (H1 & H2 & H3 & H4);
                                             discriminate]
            |right; eauto])
    || (split; [split; [auto|reflexivity]|left; reflexivity]).
Qed.

(** X13.  Cruise returns one phase for every climb-cruise-descent section
    unless a section has neither a top of climb within it nor a start,
    and neither a top of descent within it nor a stop: it then raises
    [TypeError].  A section that has no top of descent within it and no
    stop gives a cruise of one sample from its begin. *)
Theorem cruise_fails_on_section_without_bounds
        (ccds : list (slice Q)) (tocs tods : list Q) :
  let unbounded ccd :=
    get_first tocs ccd = None /\ start ccd = None
    /\ get_last tods ccd = None /\ stop ccd = None in
  ((exists phases,
       Cruise.derive get_first get_last ccds tocs tods = Return phases
       /\ length phases = length ccds)
   <-> forall ccd, In ccd ccds -> ~ unbounded ccd)
  /\ ((exists ccd, In ccd ccds /\ unbounded ccd) ->
      Cruise.derive get_first get_last ccds tocs tods = Raise TypeError)
  /\ (forall ccd p,
         Cruise.cruise get_first get_last tocs tods ccd = Return p ->
         get_last tods ccd = None -> stop ccd = None ->
         exists b, start p = Some b /\ stop p = Some (b + 1)).
Proof.
  intro unbounded. unfold Cruise.derive. split; [|split].
  - split.
    + intros (phases & H & _) ccd Hccd Hun.
      destruct (mapM_returns _ _ _ H ccd Hccd) as (p & Hp).
      apply (cruise_raises_iff tocs tods ccd) in Hun. congruence.
    + intro Hok.
      destruct (mapM_total (Cruise.cruise get_first get_last tocs tods) ccds)
        as (phases & Hphases).
      * intros ccd Hccd.
        destruct (cruise_raises_iff tocs tods ccd) as [Hiff [Hr | Hp]];
          [|exact Hp].
        apply Hiff in Hr. elim (Hok ccd Hccd Hr).
      * exists phases. split; [exact Hphases|].
        exact (mapM_length _ _ _ Hphases).
  - intros (ccd & Hccd & Hun). apply mapM_raises.
    + intros a _. apply cruise_raises_iff.
    + exists ccd. split; [exact Hccd|]. apply cruise_raises_iff. exact Hun.
  - intros ccd p H Hlast Hstop. unfold Cruise.cruise in H.
    rewrite Hlast, Hstop in H. cbn [py2_le] in H.
    destruct (match get_first tocs ccd with
              | Some toc => Some toc
              | None => start ccd
              end) as [b|]; [|discriminate].
    injection H as <-. exists b. split; reflexivity.
Qed.

End CruiseProperties.

(** ** Warning-caption mode of the gear rules *)

Lemma getitem_Z_minus_one {A : Type} (l : list A) (x : A) :
  getitem_Z l (-1) = Return x -> exists front, l = front ++ [x].
Proof.
  intro H. destruct l as [|y l].
  - rewrite getitem_Z_empty in H. discriminate.
  - destruct (exists_last (l := y :: l)) as (front & z & Hl); [discriminate|].
    rewrite Hl in *. rewrite getitem_Z_last in H. injection H as <-.
    exists front. reflexivity.
Qed.

Lemma filterM_In {A : Type} (f : A -> result bool) (l kept : list A) :
  filterM f l = Return kept ->
  forall a, In a kept -> In a l /\ f a = Return true.
Proof.
  revert kept. induction l as [|x l IH]; intros kept H a Ha; simpl in H.
  - injection H as <-. destruct Ha.
  - destruct (f x) as [keep|] eqn:Hx; [|discriminate]. cbn [bind] in H.
    destruct (filterM f l) as [more|]; [|discriminate].
    cbn [bind] in H. injection H as <-.
    destruct keep.
    + destruct Ha as [<- | Ha]; [split; [left; reflexivity|exact Hx]|].
      destruct (IH more eq_refl a Ha). split; [right|]; assumption.
    + destruct (IH more eq_refl a Ha). split; [right|]; assumption.
Qed.

Section WarningModeProperties.

Variable ezclump : masked_array bool -> list (slice Z).
Variable slices_and : list (slice Z) -> list (slice Z) -> list (slice Z).
Variable find_edges : masked_array Z -> slice Z -> edge_direction -> list Q.

(** X14.  With the three red warnings, every phase GearExtending (or
    GearRetracting) returns is a moving run restricted to an airborne
    section, and the gear sample just before the run is valid and reads
    'Up' (or 'Down').  For a run that starts at index 0 the sample tested
    is the last sample of the recording. *)
Theorem gear_transit_warning_phases
        (self_name prior : string) (direction : edge_direction)
        (gear_down : multistate) (l n r : masked_array bool)
        (frame : option string) (airs : list (slice Z))
        (phases : list (slice Q)) :
  gear_transit ezclump slices_and find_edges self_name prior direction
               gear_down (Some l) (Some n) (Some r) frame airs
  = Return phases ->
  forall p, In p phases ->
    exists air gear_move b v,
      In air airs
      /\ In gear_move (slices_and [air] (gear_moving ezclump (gear_warn l n r)))
      /\ p = slice_ZtoQ gear_move
      /\ start gear_move = Some b
      /\ state (values_mapping gear_down) prior = Return v
      /\ getitem_Z (raw gear_down) (b - 1) = Return (Some v)
      /\ (b = 0%Z -> exists front, raw gear_down = front ++ [Some v]).
Proof.
  intros H p Hp. unfold gear_transit in H. cbn in H.
  unfold warning_mode in H.
  destruct (mapM _ airs) as [created|] eqn:E; [|discriminate].
  cbn [bind] in H. injection H as <-.
  apply in_map_iff in Hp. destruct Hp as (gear_move & <- & Hmove).
  apply in_concat in Hmove. destruct Hmove as (c & Hc & Hmove).
  destruct (mapM_In _ _ _ E c Hc) as (air & Hair & Hfilter).
  destruct (filterM_In _ _ _ Hfilter gear_move Hmove) as [Hin Hprior].
  unfold prior_state_is in Hprior.
  destruct (start gear_move) as [b|] eqn:Hb; [|discriminate].
  destruct (getitem_Z (raw gear_down) (b - 1)) as [x|] eqn:Hx; [|discriminate].
  cbn [bind] in Hprior.
  destruct (state (values_mapping gear_down) prior) as [v|] eqn:Hv;
    [|discriminate].
  cbn [bind] in Hprior. injection Hprior as Heq.
  destruct x as [raw_value|]; [|discriminate].
  apply Z.eqb_eq in Heq. subst raw_value.
  exists air, gear_move, b, v. repeat split; auto.
  intros ->. apply getitem_Z_minus_one. exact Hx.
Qed.

End WarningModeProperties.

(** X14 on a gear cycle with the warnings lit while the gear moves. *)
Lemma gear_transit_warning_witness :
  let p := slice2 2 4 in
    exists air gear_move b v,
      In air Examples.airborne
      /\ In gear_move
            (SpecLibrary.slices_and [air]
               (gear_moving SpecLibrary.ezclump
                  (gear_warn Examples.warning_flicker Examples.no_warning
                             Examples.no_warning)))
      /\ p = slice_ZtoQ gear_move
      /\ start gear_move = Some b
      /\ state (values_mapping Examples.gear_cycle) "Up" = Return v
      /\ getitem_Z (raw Examples.gear_cycle) (b - 1) = Return (Some v)
      /\ (b = 0%Z -> exists front, raw Examples.gear_cycle = front ++ [Some v]).
Proof.
  apply (gear_transit_warning_phases SpecLibrary.ezclump
           SpecLibrary.slices_and SpecLibrary.find_edges
           "Gear Extending" "Up" rising_edges Examples.gear_cycle
           Examples.warning_flicker Examples.no_warning Examples.no_warning
           (Some "737-3C"%string) Examples.airborne [slice2 2 4]).
  - vm_compute. reflexivity.
  - left. reflexivity.
Defined.

(** ** The phases of ClimbCruiseDescent *)

Section CCDWalk.
Import ClimbCruiseDescent.

Lemma getitem_app_shift {A : Type} (p l : list A) (n : nat) :
  getitem (p ++ l) (length p + n) = getitem l n.
Proof.
  unfold getitem. rewrite nth_error_app2 by lia.
  replace (length p + n - length p)%nat with n by lia. reflexivity.
Qed.

Lemma body_shift (pi pv li lv : list Q) (n : nat) :
  length pi = length pv ->
  body (pi ++ li) (pv ++ lv) (length pv + n)
  = match body li lv n with
    | Return (created, n') => Return (created, (length pv + n')%nat)
    | Raise e => Raise e
    end.
Proof.
  intro Hlen. unfold body.
  rewrite <- !Nat.add_assoc.
  rewrite !getitem_app_shift.
  rewrite <- Hlen, !getitem_app_shift, Hlen.
  rewrite length_app.
  replace (length pv + (n + 2) <? length pv + length lv)%nat
    with (n + 2 <? length lv)%nat.
  2:{ destruct (n + 2 <? length lv)%nat eqn:E; symmetry.
      - apply Nat.ltb_lt in E. apply Nat.ltb_lt. lia.
      - apply Nat.ltb_ge in E. apply Nat.ltb_ge. lia. }
  destruct (getitem lv n) as [a|]; [|reflexivity]. cbn [bind].
  destruct (getitem li n) as [ia|]; [|reflexivity]. cbn [bind].
  destruct (getitem lv (n + 1)) as [b|]; [|reflexivity]. cbn [bind].
  destruct (getitem li (n + 1)) as [ib|]; [|reflexivity]. cbn [bind].
  destruct (Qltb b a); [reflexivity|].
  destruct (n + 2 <? length lv)%nat; [|reflexivity].
  destruct (getitem lv (n + 2)) as [c|]; [|reflexivity]. cbn [bind].
  destruct (Qltb c b); [|reflexivity].
  destruct (getitem li (n + 2)) as [ic|]; reflexivity.
Qed.

Lemma while_shift (pi pv li lv : list Q) :
  length pi = length pv ->
  forall fuel n phases,
    while fuel (pi ++ li) (pv ++ lv) (length pv + n) phases
    = while fuel li lv n phases.
Proof.
  intros Hlen fuel. induction fuel as [|fuel IH]; intros n phases.
  - cbn [while]. rewrite length_app.
    replace (length pv + n <? length pv + length lv - 1)%nat
      with (n <? length lv - 1)%nat; [reflexivity|].
    destruct (n <? length lv - 1)%nat eqn:E; symmetry.
    + apply Nat.ltb_lt in E. apply Nat.ltb_lt. lia.
    + apply Nat.ltb_ge in E. apply Nat.ltb_ge. lia.
  - cbn [while]. rewrite length_app.
    replace (length pv + n <? length pv + length lv - 1)%nat
      with (n <? length lv - 1)%nat.
    2:{ destruct (n <? length lv - 1)%nat eqn:E; symmetry.
        - apply Nat.ltb_lt in E. apply Nat.ltb_lt. lia.
        - apply Nat.ltb_ge in E. apply Nat.ltb_ge. lia. }
    destruct (n <? length lv - 1)%nat; [|reflexivity].
    rewrite body_shift by exact Hlen.
    destruct (body li lv n) as [[created n']|]; [|reflexivity].
    apply IH.
Qed.

Lemma while_S (fuel : nat) (pk_idxs pk_vals : list Q) (n : nat)
      (phases : list (slice Q)) :
  while (S fuel) pk_idxs pk_vals n phases
  = if (n <? length pk_vals - 1)%nat
    then match body pk_idxs pk_vals n with
         | Return (created, n') =>
             while fuel pk_idxs pk_vals n' (phases ++ created)
         | Raise e => Some (Raise e)
         end
    else Some (Return phases).
Proof. reflexivity. Qed.

Lemma strictly_alternating_tail (a : Q) (vals : list Q) :
  strictly_alternating (a :: vals) = true -> strictly_alternating vals = true.
Proof.
  destruct vals as [|b [|c rest]]; try reflexivity.
  intro H. cbn [strictly_alternating] in H.
  apply andb_true_iff in H. tauto.
Qed.

(** Extrema that start by rising. *)
Lemma while_humps (m : nat) :
  forall pk_idxs pk_vals,
    (length pk_vals <= m)%nat ->
    length pk_idxs = length pk_vals ->
    strictly_alternating pk_vals = true ->
    match pk_vals with
    | a :: b :: _ => a < b
    | _ => True
    end ->
    forall fuel phases,
      (length pk_vals <= fuel)%nat ->
      while fuel pk_idxs pk_vals 0 phases
      = Some (Return (phases ++ humps pk_idxs)).
Proof.
  induction m as [|m IH]; intros pk_idxs pk_vals Hm Hlen Halt Hrise fuel
                                 phases Hfuel.
  - destruct pk_vals; [|simpl in Hm; lia].
    destruct pk_idxs; [|discriminate].
    destruct fuel; cbn; rewrite app_nil_r; reflexivity.
  - destruct pk_vals as [|a [|b [|c rest]]].
    + destruct pk_idxs; [|discriminate].
      destruct fuel; cbn; rewrite app_nil_r; reflexivity.
    + destruct pk_idxs as [|i0 [|]]; try discriminate.
      destruct fuel; cbn; rewrite app_nil_r; reflexivity.
    + destruct pk_idxs as [|i0 [|i1 [|]]]; try discriminate.
      destruct fuel as [|fuel]; [simpl in Hfuel; lia|].
      assert (Hba : Qltb b a = false) by (apply Qltb_ge; lra).
      cbn [while length Nat.sub Nat.ltb Nat.leb body getitem nth_error
           Nat.add bind]. rewrite Hba.
      cbn [while length Nat.sub Nat.ltb Nat.leb Nat.add].
      destruct fuel; reflexivity.
    + destruct pk_idxs as [|i0 [|i1 [|i2 resti]]]; try discriminate.
      destruct fuel as [|fuel]; [simpl in Hfuel; lia|].
      assert (Hcb : c < b).
      { cbn [strictly_alternating] in Halt.
        apply andb_true_iff in Halt. destruct Halt as [H _].
        apply orb_true_iff in H.
        destruct H as [H|H]; apply andb_true_iff in H; destruct H as [H1 H2];
          apply Qltb_lt in H1, H2; lra. }
      assert (Hba : Qltb b a = false) by (apply Qltb_ge; lra).
      apply Qltb_lt in Hcb.
      cbn [while]. cbn [length Nat.sub Nat.ltb Nat.leb].
      unfold body at 1.
      cbn [getitem nth_error Nat.add bind length Nat.ltb Nat.leb].
      rewrite Hba, Hcb. cbn [bind].
      change (i0 :: i1 :: i2 :: resti) with ([i0; i1] ++ i2 :: resti).
      change (a :: b :: c :: rest) with ([a; b] ++ c :: rest).
      change 2%nat with (length [a; b] + 0)%nat at 1.
      rewrite while_shift by reflexivity.
      rewrite (IH (i2 :: resti) (c :: rest)).
      * cbn [humps app]. rewrite <- app_assoc. reflexivity.
      * simpl in Hm |- *. lia.
      * simpl in Hlen |- *. lia.
      * apply strictly_alternating_tail with (a := b).
        apply strictly_alternating_tail with (a := a). exact Halt.
      * destruct rest as [|d rest']; [exact I|].
        apply strictly_alternating_tail in Halt.
        cbn [strictly_alternating] in Halt.
        apply andb_true_iff in Halt. destruct Halt as [H _].
        apply orb_true_iff in H. apply Qltb_lt in Hcb.
        destruct H as [H|H]; apply andb_true_iff in H; destruct H as [H1 H2];
          apply Qltb_lt in H1, H2; lra.
      * simpl in Hfuel |- *. lia.
Qed.

(** X15.  When the extrema strictly alternate in direction, the walking
    loop of ClimbCruiseDescent creates one phase from every trough to the
    next trough, and a last phase without stop when the extrema end on a
    peak; extrema that start by descending give first a phase without
    start that stops at the first trough. *)
Theorem ccd_one_phase_per_hump (pk_idxs pk_vals : list Q) :
  length pk_idxs = length pk_vals ->
  strictly_alternating pk_vals = true ->
  while (length pk_vals) pk_idxs pk_vals 0 []
  = Some (Return (walk pk_idxs pk_vals)).
Proof.
  intros Hlen Halt.
  destruct pk_vals as [|a [|b rest]].
  - destruct pk_idxs; [reflexivity|discriminate].
  - destruct pk_idxs as [|i0 [|]]; try discriminate. reflexivity.
  - destruct pk_idxs as [|i0 [|i1 resti]]; try discriminate.
    cbn [walk]. destruct (Qltb b a) eqn:Hba.
    + cbn [length]. rewrite while_S. cbn [length Nat.sub Nat.ltb Nat.leb].
      unfold body at 1. cbn [getitem nth_error Nat.add bind].
      rewrite Hba. cbn [app].
      change (i0 :: i1 :: resti) with ([i0] ++ i1 :: resti).
      change (a :: b :: rest) with ([a] ++ b :: rest).
      change 1%nat with (length [a] + 0)%nat at 1.
      rewrite while_shift by reflexivity.
      rewrite (while_humps (length (b :: rest)) (i1 :: resti) (b :: rest)).
      * reflexivity.
      * lia.
      * simpl in Hlen |- *. lia.
      * apply strictly_alternating_tail with (a := a). exact Halt.
      * destruct rest as [|c rest']; [exact I|].
        cbn [strictly_alternating] in Halt.
        apply andb_true_iff in Halt. destruct Halt as [H _].
        apply orb_true_iff in H. apply Qltb_lt in Hba.
        destruct H as [H|H]; apply andb_true_iff in H; destruct H as [H1 H2];
          apply Qltb_lt in H1, H2; lra.
      * simpl. lia.
    + rewrite (while_humps (length (a :: b :: rest))); try reflexivity;
        try assumption; try lia.
      assert (Hab : Qltb a b = true).
      { destruct rest as [|c rest']; cbn [strictly_alternating] in Halt.
        - rewrite Hba, orb_false_r in Halt. exact Halt.
        - apply andb_true_iff in Halt. destruct Halt as [H _].
          rewrite Hba in H. cbn [andb] in H. rewrite orb_false_r in H.
          apply andb_true_iff in H. tauto. }
      apply Qltb_lt. exact Hab.
Qed.

End CCDWalk.

(** X15 on a climb to 5000 ft and back, then a climb to 3000 ft. *)
Lemma ccd_one_phase_per_hump_witness :
  ClimbCruiseDescent.while 4 [10; 20; 30; 40] [0; 5000; 1000; 3000] 0 []
  = Some (Return (walk [10; 20; 30; 40] [0; 5000; 1000; 3000])).
Proof.
  apply (ccd_one_phase_per_hump [10; 20; 30; 40] [0; 5000; 1000; 3000]);
    reflexivity.
Defined.

(** ** More on the beam capture scanner *)

Section ScanILSMore.

Variable index_at_value : index_at_value_t.

(** X16.  For the localizer the height plays no part: [scan_ils] gives
    the same answer whatever the height array. *)
Theorem localizer_scan_ignores_height
        (ils_dots height height' : masked_array Q) (scan_slice : slice Q) :
  scan_ils index_at_value "localizer" ils_dots height scan_slice
  = scan_ils index_at_value "localizer" ils_dots height' scan_slice.
Proof.
  rewrite !scan_ils_valid_beam by (left; reflexivity).
  destruct (quality_check ils_dots scan_slice) as [pass|]; [|reflexivity].
  cbn [bind]. destruct (negb pass); [reflexivity|].
  destruct (loss_of_capture index_at_value (ma_abs ils_dots) scan_slice)
    as [[l0|]|]; reflexivity.
Qed.

(** X17.  When the last valid sample of the interval is within 2.5 dots,
    the interval [scan_ils] returns, for either beam, stops no later than
    the start of the scanned interval plus the offset of that sample plus
    one: one sample past it when the scan starts at a whole index. *)
Theorem scan_ils_stops_by_last_valid_sample
        (beam : string) (ils_dots height : masked_array Q)
        (scan_slice : slice Q) (s : Q) (last_valid_idx : nat)
        (last_valid_value : Q) (established : slice Q) :
  start scan_slice = Some s ->
  last_valid_sample (np_getslice_float (ma_abs ils_dots) scan_slice)
  = Some (last_valid_idx, last_valid_value) ->
  last_valid_value < 25 # 10 ->
  scan_ils index_at_value beam ils_dots height scan_slice
  = Return (Some established) ->
  exists e, stop established = Some e
            /\ e <= s + NtoQ last_valid_idx + 1.
Proof.
  intros Hs Hlast Hv Hscan.
  assert (Hbeam : beam = "localizer"%string \/ beam = "glideslope"%string).
  { unfold scan_ils in Hscan.
    destruct (String.eqb beam "localizer") eqn:El.
    - left. apply String.eqb_eq. exact El.
    - destruct (String.eqb beam "glideslope") eqn:Eg.
      + right. apply String.eqb_eq. exact Eg.
      + discriminate. }
  rewrite scan_ils_valid_beam in Hscan by exact Hbeam.
  destruct (quality_check ils_dots scan_slice) as [[|]|]; try discriminate.
  cbn [bind negb] in Hscan.
  unfold loss_of_capture in Hscan. rewrite Hlast, Hs in Hscan.
  apply Qltb_lt in Hv. rewrite Hv in Hscan. cbn [bind] in Hscan.
  destruct (height_limit index_at_value beam height scan_slice
              (s + NtoQ last_valid_idx + 1)) as [l|] eqn:El;
    [|discriminate].
  cbn [bind] in Hscan.
  destruct (start_of_capture index_at_value (ma_abs ils_dots) scan_slice l)
    as [[c|]|]; try discriminate.
  cbn [bind] in Hscan. injection Hscan as <-.
  exists l. split; [reflexivity|].
  unfold height_limit in El.
  destruct (String.eqb beam "glideslope").
  - destruct (index_at_value height 200 (backward scan_slice) closing)
      as [[i|]|]; try discriminate; cbn [bind] in El; injection El as <-.
    + apply py_min_le_l.
    + lra.
  - injection El as <-. lra.
Qed.

End ScanILSMore.

(** X17 on a localizer whose first sample is masked. *)
Lemma scan_ils_stops_by_last_valid_witness :
  exists e, stop (slice2 1 6) = Some e /\ e <= 0 + NtoQ 5 + 1.
Proof.
  apply (scan_ils_stops_by_last_valid_sample SpecLibrary.index_at_value
           "localizer" Examples.late_localizer Examples.level_flight
           Examples.first_six 0 5%nat (1 # 2) (slice2 1 6));
    vm_compute; reflexivity.
Defined.

(** ** Holding *)

Section HoldingDerive.

Variables HOLDING_MIN_TIME HOLDING_MAX_GSPD KTS_TO_MPS : Q.
Variable bearing_and_distance :
  option Q -> option Q -> option Q -> option Q -> option Q * option Q.
Variable slices_from_to : masked_array Q -> Q -> Q -> list (slice Z).
Variable rate_of_change : parameter -> Q -> masked_array Q.

(** X18.  When [HOLDING_MIN_TIME * frequency] is not negative, the
    position arrays are as long as the rate of turn and no height band
    starts at a negative index, Holding does not fail, and every phase it
    returns is a turn band of a height band that lies within the data and
    lasts more than [HOLDING_MIN_TIME * frequency] samples. *)
Theorem holding_returns_turn_bands (alt_aal hdg lat lon : parameter) :
  let height_bands := slices_from_to (array alt_aal) 20000 3000 in
  let turn_rate := rate_of_change hdg (3 * 60) in
  0 <= HOLDING_MIN_TIME * frequency alt_aal ->
  (forall height_band s,
      In height_band height_bands -> start height_band = Some s ->
      (0 <= s)%Z) ->
  (length turn_rate <= length (array lat))%nat ->
  (length turn_rate <= length (array lon))%nat ->
  exists phases,
    Holding.derive HOLDING_MIN_TIME HOLDING_MAX_GSPD KTS_TO_MPS
                   bearing_and_distance slices_from_to rate_of_change
                   alt_aal hdg lat lon = Return phases
    /\ forall p, In p phases ->
         exists height_band b e,
           In height_band height_bands
           /\ In p (Holding.turn_bands turn_rate height_band)
           /\ start p = Some b /\ stop p = Some e
           /\ (0 <= b < e)%Z /\ (e <= Z.of_nat (length turn_rate))%Z
           /\ HOLDING_MIN_TIME * frequency alt_aal < Holding.hold_sec b e.
Proof.
  intros height_bands turn_rate Hmin Hstart Hlat Hlon.
  unfold Holding.derive. fold height_bands. fold turn_rate.
  assert (Hband : forall height_band, In height_band height_bands ->
            exists kept,
              Holding.hold_bands HOLDING_MIN_TIME HOLDING_MAX_GSPD KTS_TO_MPS
                bearing_and_distance (frequency alt_aal) (array lat)
                (array lon) (Holding.turn_bands turn_rate height_band)
              = Return kept
              /\ forall p, In p kept ->
                   exists b e,
                     In p (Holding.turn_bands turn_rate height_band)
                     /\ start p = Some b /\ stop p = Some e
                     /\ (0 <= b < e)%Z
                     /\ (e <= Z.of_nat (length turn_rate))%Z
                     /\ HOLDING_MIN_TIME * frequency alt_aal
                        < Holding.hold_sec b e).
  { intros height_band Hin.
    assert (Hnonneg : match start height_band with
                      | Some s => (0 <= s)%Z
                      | None => True
                      end).
    { destruct (start height_band) as [s|] eqn:Hs; [|exact I].
      exact (Hstart height_band s Hin Hs). }
    destruct (hold_bands_keeps_iff HOLDING_MIN_TIME HOLDING_MAX_GSPD
                KTS_TO_MPS bearing_and_distance (frequency alt_aal)
                (array lat) (array lon)
                (Holding.turn_bands turn_rate height_band))
      as (kept & Hkept & Hiff & _).
    { exact Hmin. }
    { intros band Hband.
      destruct (turn_bands_within turn_rate height_band band Hnonneg Hband)
        as (b & e & Hb & He & Hbe & Hlen).
      exists b, e. split; [exact Hb|]. split; [exact He|].
      split; [exact Hbe|]. intro Hlt. specialize (Hlen Hlt). lia. }
    exists kept. split; [exact Hkept|].
    intros p Hp. apply Hiff in Hp.
    destruct Hp as (Hin_bands & b & e & _ & _ & _ & _ & _ & Hb & He & _ & _
                    & _ & _ & _ & Hlong & _).
    destruct (turn_bands_within turn_rate height_band p Hnonneg Hin_bands)
      as (b' & e' & Hb' & He' & Hbe & Hlen).
    rewrite Hb in Hb'. rewrite He in He'.
    injection Hb' as <-. injection He' as <-.
    assert (Hlt := hold_sec_positive _ b e Hmin Hlong).
    specialize (Hlen Hlt).
    exists b, e. repeat split; auto; lia. }
  destruct (mapM_Forall2
              (fun height_band =>
                 Holding.hold_bands HOLDING_MIN_TIME HOLDING_MAX_GSPD
                   KTS_TO_MPS bearing_and_distance (frequency alt_aal)
                   (array lat) (array lon)
                   (Holding.turn_bands turn_rate height_band))
              (fun height_band kept =>
                 forall p, In p kept ->
                   exists b e,
                     In p (Holding.turn_bands turn_rate height_band)
                     /\ start p = Some b /\ stop p = Some e
                     /\ (0 <= b < e)%Z
                     /\ (e <= Z.of_nat (length turn_rate))%Z
                     /\ HOLDING_MIN_TIME * frequency alt_aal
                        < Holding.hold_sec b e)
              height_bands) as (created & Hcreated & Hall).
  { intros height_band Hin. exact (Hband height_band Hin). }
  rewrite Hcreated. cbn [bind]. eexists. split; [reflexivity|].
  intros p Hp. apply in_concat in Hp. destruct Hp as (kept & Hkept & Hp).
  destruct (Forall2_In_r _ _ _ _ Hall Hkept) as (height_band & Hin & Hprop).
  destruct (Hprop p Hp) as (b & e & Hrest).
  exists height_band, b, e. split; [exact Hin|exact Hrest].
Qed.

End HoldingDerive.

(** X18 on the slow drift north of the holding example. *)
Lemma holding_returns_turn_bands_witness :
  exists phases,
    Holding.derive 240 60 (514444 # 1000000) Examples.meridian_distance
                   Flights.height_bands Flights.rate_of_turn
                   Flights.positions_north Flights.positions_north
                   Flights.positions_north Flights.positions_east
    = Return phases
    /\ forall p, In p phases ->
         exists height_band b e,
           In height_band
              (Flights.height_bands (array Flights.positions_north) 20000 3000)
           /\ In p (Holding.turn_bands
                      (Flights.rate_of_turn Flights.positions_north (3 * 60))
                      height_band)
           /\ start p = Some b /\ stop p = Some e
           /\ (0 <= b < e)%Z
           /\ (e <= Z.of_nat
                      (length (Flights.rate_of_turn Flights.positions_north
                                                    (3 * 60))))%Z
           /\ 240 * frequency Flights.positions_north < Holding.hold_sec b e.
Proof.
  apply (holding_returns_turn_bands 240 60 (514444 # 1000000)
           Examples.meridian_distance Flights.height_bands
           Flights.rate_of_turn Flights.positions_north
           Flights.positions_north Flights.positions_north
           Flights.positions_east).
  - vm_compute. discriminate.
  - intros height_band s [<- | []] Hs. injection Hs as <-. lia.
  - apply Nat.leb_le. vm_compute. reflexivity.
  - apply Nat.leb_le. vm_compute. reflexivity.
Defined.

(** X13 on a section without any bound, and on a section that has a
    start only. *)
Lemma cruise_fails_witness :
  Cruise.derive SpecLibrary.get_first SpecLibrary.get_last
                [slice2 100 900; Slice None None None] [] []
  = Raise TypeError
  /\ exists b, start (slice2 950 951) = Some b
               /\ stop (slice2 950 951) = Some (b + 1).
Proof.
  destruct (cruise_fails_on_section_without_bounds SpecLibrary.get_first
              SpecLibrary.get_last [slice2 100 900; Slice None None None]
              [] []) as (_ & Hraise & Hone).
  split.
  - apply Hraise. exists (Slice None None None).
    split; [right; left; reflexivity|]. repeat split.
  - apply (Hone (Slice (Some 950) None None) (slice2 950 951)); reflexivity.
Defined.

(** [KTI.get_ordered_by_index] orders and keeps the indices. *)
Lemma insert_sorted (x : Q) (l : list Q) :
  StronglySorted Qle l -> StronglySorted Qle (KTI.insert x l).
Proof.
  induction 1 as [|y rest Hsorted IH Hall]; simpl.
  - repeat constructor.
  - destruct (Qleb x y) eqn:E.
    + apply Qleb_le in E. constructor; [constructor; assumption|].
      constructor; [exact E|].
      rewrite Forall_forall in *. intros z Hz. specialize (Hall z Hz). lra.
    + assert (Hyx : y <= x).
      { destruct (Qlt_le_dec y x) as [H|H]; [lra|].
        apply Qleb_le in H. congruence. }
      constructor; [exact IH|].
      rewrite Forall_forall in *. intros z Hz.
      assert (Hin : z = x \/ In z rest).
      { clear - Hz. induction rest as [|w rest IH]; simpl in Hz.
        - destruct Hz as [<- | []]. left. reflexivity.
        - destruct (Qleb x w); simpl in Hz.
          + destruct Hz as [<- | Hz]; [left; reflexivity|right; exact Hz].
          + destruct Hz as [<- | Hz]; [right; left; reflexivity|].
            destruct (IH Hz) as [-> | H]; [left; reflexivity|right; right; exact H]. }
      destruct Hin as [-> | Hin]; [exact Hyx|apply Hall; exact Hin].
Qed.

Lemma insert_In (x c : Q) (l : list Q) :
  In c (KTI.insert x l) <-> c = x \/ In c l.
Proof.
  induction l as [|y rest IH]; simpl.
  - intuition congruence.
  - destruct (Qleb x y); simpl; [|rewrite IH]; intuition congruence.
Qed.

Lemma get_ordered_by_index_sorted (l : list Q) :
  StronglySorted Qle (KTI.get_ordered_by_index l)
  /\ forall c, In c (KTI.get_ordered_by_index l) <-> In c l.
Proof.
  unfold KTI.get_ordered_by_index. induction l as [|x l [IHs IHi]]; simpl.
  - split; [constructor|tauto].
  - split; [apply insert_sorted; exact IHs|].
    intro c. rewrite insert_In, IHi. split; intros [H | H]; auto.
Qed.
